(** * api/analyze-policy.js : the policy-analysis request handler

    A shallow embedding of the serverless handler of [api/analyze-policy.js]
    and of the JavaScript built-ins it calls, followed by the properties of
    the document-to-structured-analysis pipeline.

    Conventions.
    - A JavaScript string is a sequence of UTF-16 code units.  Texts that
      enter the handler (file names, header values, the model's reply) are
      modelled as [string], read as code units in the range 0..255; the
      built-ins below are the ECMAScript ones restricted to that range.
      Strings produced by [JSON.parse] may hold any code unit (through
      [\uXXXX] escapes) and are kept as [list N].
    - A number is kept as the exact decimal value of its literal; rounding
      to binary64 is not modelled.
    - [res.json(body)] serializes its argument with [JSON.stringify], which
      throws on a value nested deeper than the engine allows.  For the
      success envelope, which holds the parsed reply, that error is taken
      from the world ([stringify_error]); the failure envelopes are flat
      objects of booleans and texts, on which it cannot throw.
    - [console.log] and [console.error] have no effect on the response and
      are left out. *)

From Stdlib Require Import String Ascii List Bool Arith NArith ZArith QArith Lia.
From Stdlib Require Import Strings.Byte DecimalString.
Import ListNotations.

Local Close Scope Q_scope.
Local Open Scope list_scope.
Local Open Scope string_scope.

(** ** JavaScript strings *)

Module JsString.

(** The double-quote character, U+0022. *)
Definition dq : string := String "034"%char EmptyString.

(** The line feed, U+000A. *)
Definition lf : string := String "010"%char EmptyString.

Definition code (a : ascii) : N := N_of_ascii a.

(** [String.prototype.toLowerCase] on texts whose code units are all in
    0..255: the Basic Latin capitals and the Latin-1 capitals U+00C0..U+00DE
    (U+00D7 is the multiplication sign) move up by 32.  On these texts the
    ECMAScript mapping works character by character; its context-sensitive
    and multi-character cases (U+03A3 before the end of a word, U+0130) need
    characters outside the range, and texts that hold such characters are
    outside this model. *)
Definition lower_char (a : ascii) : ascii :=
  let n := code a in
  if ((65 <=? n) && (n <=? 90))%N then ascii_of_N (n + 32)
  else if ((192 <=? n) && (n <=? 222) && negb (n =? 215))%N
       then ascii_of_N (n + 32)
       else a.

Fixpoint toLowerCase (s : string) : string :=
  match s with
  | EmptyString => EmptyString
  | String a s' => String (lower_char a) (toLowerCase s')
  end.

(** [s.split(sep)] for a one-character separator: the segments between the
    occurrences of [sep]; never the empty array. *)
Fixpoint split (sep : ascii) (s : string) : list string :=
  match s with
  | EmptyString => [EmptyString]
  | String a s' =>
      if Ascii.eqb a sep then EmptyString :: split sep s'
      else match split sep s' with
           | seg :: segs => String a seg :: segs
           | [] => [String a EmptyString]
           end
  end.

(** [arr.pop()] as used on the result of [split]: the last element,
    [undefined] on the empty array. *)
Fixpoint pop (l : list string) : option string :=
  match l with
  | [] => None
  | [x] => Some x
  | _ :: l' => pop l'
  end.

(** [s.substring(start, end)] for [0 <= start <= end]. *)
Definition substring (start stop : nat) (s : string) : string :=
  String.substring start (stop - start) s.

(** [s.substr(start, length)]. *)
Definition substr (start len : nat) (s : string) : string :=
  String.substring start len s.

(** White space and line terminators of ECMAScript within 0..255:
    TAB, LF, VT, FF, CR, SP and NBSP. *)
Definition is_white (a : ascii) : bool :=
  let n := code a in
  ((n =? 9) || (n =? 10) || (n =? 11) || (n =? 12) || (n =? 13)
   || (n =? 32) || (n =? 160))%N.

Fixpoint trimStart (s : string) : string :=
  match s with
  | EmptyString => EmptyString
  | String a s' => if is_white a then trimStart s' else s
  end.

(** Removes trailing white space; the result of the recursive call is empty
    exactly when the rest is all white space. *)
Fixpoint trimEnd (s : string) : string :=
  match s with
  | EmptyString => EmptyString
  | String a s' =>
      match trimEnd s' with
      | EmptyString => if is_white a then EmptyString else String a EmptyString
      | t => String a t
      end
  end.

Definition trim (s : string) : string := trimEnd (trimStart s).

(** Does [s] start with [p]? *)
Fixpoint startsWith (p s : string) : bool :=
  match p, s with
  | EmptyString, _ => true
  | String a p', String b s' => Ascii.eqb a b && startsWith p' s'
  | String _ _, EmptyString => false
  end.

(** [s.includes(p)]. *)
Fixpoint includes (p s : string) : bool :=
  startsWith p s
  || match s with
     | EmptyString => false
     | String _ s' => includes p s'
     end.

(** Index of the first and of the last occurrence of a character. *)
Fixpoint indexOf (a : ascii) (s : string) : option nat :=
  match s with
  | EmptyString => None
  | String b s' =>
      if Ascii.eqb b a then Some 0
      else option_map S (indexOf a s')
  end.

Fixpoint lastIndexOf (a : ascii) (s : string) : option nat :=
  match s with
  | EmptyString => None
  | String b s' =>
      match lastIndexOf a s' with
      | Some j => Some (S j)
      | None => if Ascii.eqb b a then Some 0 else None
      end
  end.

(** The code units of a text. *)
Definition units (s : string) : list N := map code (list_ascii_of_string s).

(** [n.toString()] for a non-negative integer. *)
Definition decimal (n : N) : string :=
  NilZero.string_of_uint (N.to_uint n).

End JsString.

(** ** Regular expressions

    The three patterns of the handler are sequences of one-character atoms,
    each taken once, optionally ([?]) or any number of times ([*]).  The
    matcher is the backtracking one of ECMAScript: quantifiers are greedy
    and give characters back when the rest of the pattern fails. *)

Module RegExp.

Inductive atom : Type :=
| Chr (a : ascii)        (* a literal character *)
| AnyChr.                (* [\s\S] *)

Inductive quant : Type := Once | Opt | Star.

Definition regex : Type := list (atom * quant).

Definition accepts (c : atom) (a : ascii) : bool :=
  match c with
  | Chr b => Ascii.eqb a b
  | AnyChr => true
  end.

(** A literal text as a pattern. *)
Fixpoint lit (s : string) : regex :=
  match s with
  | EmptyString => []
  | String a s' => (Chr a, Once) :: lit s'
  end.

Definition consume (a : ascii) (r : option (string * string))
  : option (string * string) :=
  match r with
  | Some (m, rest) => Some (String a m, rest)
  | None => None
  end.

(** Match [r] at the start of [s]: the matched text and what follows it. *)
Fixpoint match_here (r : regex) (s : string) : option (string * string) :=
  match r with
  | [] => Some (EmptyString, s)
  | (c, Once) :: r' =>
      match s with
      | String a s' => if accepts c a then consume a (match_here r' s') else None
      | EmptyString => None
      end
  | (c, Opt) :: r' =>
      match s with
      | String a s' =>
          if accepts c a then
            match match_here r' s' with
            | Some (m, rest) => Some (String a m, rest)
            | None => match_here r' s
            end
          else match_here r' s
      | EmptyString => match_here r' s
      end
  | (c, Star) :: r' =>
      (fix star (t : string) : option (string * string) :=
         match t with
         | String a t' =>
             if accepts c a then
               match star t' with
               | Some (m, rest) => Some (String a m, rest)
               | None => match_here r' t
               end
             else match_here r' t
         | EmptyString => match_here r' t
         end) s
  end.

(** [s.match(r)] for a pattern without the [g] flag: the text of the
    leftmost match, [null] when there is none. *)
Fixpoint exec (r : regex) (s : string) : option string :=
  match match_here r s with
  | Some (m, _) => Some m
  | None =>
      match s with
      | String _ s' => exec r s'
      | EmptyString => None
      end
  end.

(** [s.replace(r, '')] for a pattern with the [g] flag.  [skip] counts the
    characters of the current match still to be dropped; after an empty
    match the search moves on by one character. *)
Fixpoint remove_from (r : regex) (skip : nat) (s : string) : string :=
  match s with
  | EmptyString => EmptyString
  | String a s' =>
      match skip with
      | S k => remove_from r k s'
      | O =>
          match match_here r s with
          | Some (m, _) =>
              match String.length m with
              | S k => remove_from r k s'
              | O => String a (remove_from r 0 s')
              end
          | None => String a (remove_from r 0 s')
          end
      end
  end.

Definition remove_all (r : regex) (s : string) : string := remove_from r 0 s.

(** The specification's reading of [/\{[\s\S]*\}/]: the widest
    brace-delimited span, from the first opening brace to the last closing
    brace, present when the latter comes after the former.  It is compared
    with [exec] on the pattern in [RegExpFacts.exec_braces]. *)
Definition widest_span (s : string) : option string :=
  match JsString.indexOf "{" s, JsString.lastIndexOf "}" s with
  | Some i, Some j =>
      if (i <? j)%nat then Some (JsString.substring i (S j) s) else None
  | _, _ => None
  end.

End RegExp.

(** ** JSON values and [JSON.parse] *)

Module Json.

Import JsString.

Definition ustring : Type := list N.

(** A JSON value.  The members of an object are kept in the order of the
    text; a later member with the same name overrides an earlier one when
    the property is read ([get]). *)
#[local] Unset Elimination Schemes.
Inductive json : Type :=
| JNull
| JBool (b : bool)
| JNumber (q : Q)
| JString (s : ustring)
| JArray (elems : list json)
| JObject (members : list (ustring * json)).
#[local] Set Elimination Schemes.

Definition JText (s : string) : json := JString (units s).
Definition JInt (z : Z) : json := JNumber (inject_Z z).

Fixpoint ustring_eqb (a b : ustring) : bool :=
  match a, b with
  | [], [] => true
  | x :: a', y :: b' => N.eqb x y && ustring_eqb a' b'
  | _, _ => false
  end.

Fixpoint lookup (k : ustring) (ms : list (ustring * json)) : option json :=
  match ms with
  | [] => None
  | (k', v) :: ms' =>
      match lookup k ms' with
      | Some w => Some w
      | None => if ustring_eqb k k' then Some v else None
      end
  end.

(** [v[k]] : the property [k] of [v]; [None] stands for [undefined]. *)
Definition get (k : string) (v : json) : option json :=
  match v with
  | JObject ms => lookup (units k) ms
  | _ => None
  end.

(** [v.k1.k2] without the TypeError: [None] when a step is missing. *)
Definition get2 (k1 k2 : string) (v : json) : option json :=
  match get k1 v with
  | Some w => get k2 w
  | None => None
  end.

(** *** Tokens *)

Inductive token : Type :=
| TLBrace | TRBrace | TLBrack | TRBrack | TColon | TComma
| TStr (s : ustring)
| TNum (q : Q)
| TTrue | TFalse | TNull.

(** The parts of a number literal read so far. *)
Record numacc : Type := mkNum {
  n_neg : bool;      (* a leading minus sign *)
  n_mant : N;        (* the digits of the integer and fraction parts *)
  n_scale : N;       (* how many of them are fraction digits *)
  n_eneg : bool;     (* a minus sign in the exponent *)
  n_expo : N         (* the digits of the exponent *)
}.

Inductive numstate : Type :=
| NMinus     (* after [-] *)
| NZero      (* after a leading [0] *)
| NInt       (* in the digits of the integer part *)
| NDot       (* after [.] *)
| NFrac      (* in the digits of the fraction *)
| NE         (* after [e] or [E] *)
| NESign     (* after the sign of the exponent *)
| NExp.      (* in the digits of the exponent *)

Definition num_complete (ns : numstate) : bool :=
  match ns with
  | NZero | NInt | NFrac | NExp => true
  | NMinus | NDot | NE | NESign => false
  end.

(** The mathematical value of a number literal. *)
Definition num_value (n : numacc) : Q :=
  let m := (if n_neg n then - Z.of_N (n_mant n) else Z.of_N (n_mant n))%Z in
  let e := ((if n_eneg n then - Z.of_N (n_expo n) else Z.of_N (n_expo n))
            - Z.of_N (n_scale n))%Z in
  if (0 <=? e)%Z then Qred (inject_Z (m * 10 ^ e))
  else Qred (Qmake m (Z.to_pos (10 ^ (- e)))).

Definition digit (a : ascii) : option N :=
  let n := code a in
  if ((48 <=? n) && (n <=? 57))%N then Some (n - 48)%N else None.

Definition hex_digit (a : ascii) : option N :=
  let n := code a in
  if ((48 <=? n) && (n <=? 57))%N then Some (n - 48)%N
  else if ((65 <=? n) && (n <=? 70))%N then Some (n - 55)%N
  else if ((97 <=? n) && (n <=? 102))%N then Some (n - 87)%N
  else None.

Definition push_mant (d : N) (n : numacc) : numacc :=
  mkNum (n_neg n) (10 * n_mant n + d) (n_scale n) (n_eneg n) (n_expo n).

Definition push_frac (d : N) (n : numacc) : numacc :=
  mkNum (n_neg n) (10 * n_mant n + d) (n_scale n + 1) (n_eneg n) (n_expo n).

Definition push_expo (d : N) (n : numacc) : numacc :=
  mkNum (n_neg n) (n_mant n) (n_scale n) (n_eneg n) (10 * n_expo n + d).

Definition set_eneg (n : numacc) : numacc :=
  mkNum (n_neg n) (n_mant n) (n_scale n) true (n_expo n).

Definition is_e (a : ascii) : bool := Ascii.eqb a "e" || Ascii.eqb a "E".

(** One more character of a number literal; [None] when the character does
    not continue the literal. *)
Definition num_step (ns : numstate) (n : numacc) (a : ascii)
  : option (numstate * numacc) :=
  match ns with
  | NMinus =>
      match digit a with
      | Some 0%N => Some (NZero, n)
      | Some d => Some (NInt, push_mant d n)
      | None => None
      end
  | NZero =>
      if Ascii.eqb a "." then Some (NDot, n)
      else if is_e a then Some (NE, n)
      else None
  | NInt =>
      match digit a with
      | Some d => Some (NInt, push_mant d n)
      | None =>
          if Ascii.eqb a "." then Some (NDot, n)
          else if is_e a then Some (NE, n)
          else None
      end
  | NDot =>
      match digit a with
      | Some d => Some (NFrac, push_frac d n)
      | None => None
      end
  | NFrac =>
      match digit a with
      | Some d => Some (NFrac, push_frac d n)
      | None => if is_e a then Some (NE, n) else None
      end
  | NE =>
      match digit a with
      | Some d => Some (NExp, push_expo d n)
      | None =>
          if Ascii.eqb a "+" then Some (NESign, n)
          else if Ascii.eqb a "-" then Some (NESign, set_eneg n)
          else None
      end
  | NESign | NExp =>
      match digit a with
      | Some d => Some (NExp, push_expo d n)
      | None => None
      end
  end.

(** *** The lexer: one character at a time *)

Inductive lexstate : Type :=
| LStart                                   (* between tokens *)
| LStr (u : ustring)                       (* in a string; [u] is reversed *)
| LEsc (u : ustring)                       (* after a backslash *)
| LUni (u : ustring) (k : nat) (v : N)     (* after [\u] and [k] hex digits *)
| LNum (ns : numstate) (n : numacc)        (* in a number *)
| LWord (rest : string) (t : token).       (* in [true], [false] or [null] *)

(** JSON white space: TAB, LF, CR and SP. *)
Definition is_ws (a : ascii) : bool :=
  let n := code a in ((n =? 9) || (n =? 10) || (n =? 13) || (n =? 32))%N.

Definition num0 (neg : bool) : numacc := mkNum neg 0 0 false 0.

(** The first character of a token. *)
Definition start_char (acc : list token) (a : ascii)
  : option (lexstate * list token) :=
  if is_ws a then Some (LStart, acc)
  else if Ascii.eqb a "{" then Some (LStart, TLBrace :: acc)
  else if Ascii.eqb a "}" then Some (LStart, TRBrace :: acc)
  else if Ascii.eqb a "[" then Some (LStart, TLBrack :: acc)
  else if Ascii.eqb a "]" then Some (LStart, TRBrack :: acc)
  else if Ascii.eqb a ":" then Some (LStart, TColon :: acc)
  else if Ascii.eqb a "," then Some (LStart, TComma :: acc)
  else if Ascii.eqb a "034" then Some (LStr [], acc)
  else if Ascii.eqb a "-" then Some (LNum NMinus (num0 true), acc)
  else if Ascii.eqb a "t" then Some (LWord "rue" TTrue, acc)
  else if Ascii.eqb a "f" then Some (LWord "alse" TFalse, acc)
  else if Ascii.eqb a "n" then Some (LWord "ull" TNull, acc)
  else match digit a with
       | Some 0%N => Some (LNum NZero (num0 false), acc)
       | Some d => Some (LNum NInt (push_mant d (num0 false)), acc)
       | None => None
       end.

(** The character after a backslash. *)
Definition escape (a : ascii) : option N :=
  if Ascii.eqb a "034" then Some 34%N
  else if Ascii.eqb a "\" then Some 92%N
  else if Ascii.eqb a "/" then Some 47%N
  else if Ascii.eqb a "b" then Some 8%N
  else if Ascii.eqb a "f" then Some 12%N
  else if Ascii.eqb a "n" then Some 10%N
  else if Ascii.eqb a "r" then Some 13%N
  else if Ascii.eqb a "t" then Some 9%N
  else None.

Definition lex_step (st : lexstate) (acc : list token) (a : ascii)
  : option (lexstate * list token) :=
  match st with
  | LStart => start_char acc a
  | LStr u =>
      if Ascii.eqb a "034" then Some (LStart, TStr (rev u) :: acc)
      else if Ascii.eqb a "\" then Some (LEsc u, acc)
      else if (code a <? 32)%N then None
      else Some (LStr (code a :: u), acc)
  | LEsc u =>
      if Ascii.eqb a "u" then Some (LUni u 0 0%N, acc)
      else match escape a with
           | Some c => Some (LStr (c :: u), acc)
           | None => None
           end
  | LUni u k v =>
      match hex_digit a with
      | Some h =>
          let v' := (16 * v + h)%N in
          match k with
          | 3 => Some (LStr (v' :: u), acc)
          | _ => Some (LUni u (S k) v', acc)
          end
      | None => None
      end
  | LNum ns n =>
      match num_step ns n a with
      | Some (ns', n') => Some (LNum ns' n', acc)
      | None =>
          if num_complete ns then start_char (TNum (num_value n) :: acc) a
          else None
      end
  | LWord rest t =>
      match rest with
      | String b rest' =>
          if Ascii.eqb a b then
            match rest' with
            | EmptyString => Some (LStart, t :: acc)
            | _ => Some (LWord rest' t, acc)
            end
          else None
      | EmptyString => None
      end
  end.

Definition lex_end (st : lexstate) (acc : list token) : option (list token) :=
  match st with
  | LStart => Some (rev acc)
  | LNum ns n =>
      if num_complete ns then Some (rev (TNum (num_value n) :: acc)) else None
  | _ => None
  end.

Fixpoint lex (st : lexstate) (acc : list token) (s : string)
  : option (list token) :=
  match s with
  | EmptyString => lex_end st acc
  | String a s' =>
      match lex_step st acc a with
      | Some (st', acc') => lex st' acc' s'
      | None => None
      end
  end.

Definition tokens (s : string) : option (list token) := lex LStart [] s.

(** The state of the lexer after the characters of [s], without the check
    at the end of the text. *)
Fixpoint lex_run (st : lexstate) (acc : list token) (s : string)
  : option (lexstate * list token) :=
  match s with
  | EmptyString => Some (st, acc)
  | String a s' =>
      match lex_step st acc a with
      | Some (st', acc') => lex_run st' acc' s'
      | None => None
      end
  end.

(** The tokens still owed by the lexer: one when it is inside a token. *)
Definition pending (st : lexstate) : nat :=
  match st with
  | LStart => 0
  | _ => 1
  end.

(** Is the text made of JSON white space only? *)
Fixpoint blank (s : string) : bool :=
  match s with
  | EmptyString => true
  | String a s' => is_ws a && blank s'
  end.

(** *** The parser: one token at a time, with the open arrays and objects
    on a stack *)

Inductive frame : Type :=
| FArr (elems : list json)                         (* reversed *)
| FObj (members : list (ustring * json)) (key : ustring).

Inductive expect : Type :=
| XValue                                   (* a value *)
| XArrFirst                                (* after [[]: a value or []] *)
| XObjFirst                                (* after [{]: a name or [}] *)
| XKey (ms : list (ustring * json))        (* after [,] in an object *)
| XColon (ms : list (ustring * json)) (k : ustring)
| XDone (v : json).                        (* a value is complete *)

Definition open_value (t : token) (st : list frame)
  : option (expect * list frame) :=
  match t with
  | TStr s => Some (XDone (JString s), st)
  | TNum q => Some (XDone (JNumber q), st)
  | TTrue => Some (XDone (JBool true), st)
  | TFalse => Some (XDone (JBool false), st)
  | TNull => Some (XDone JNull, st)
  | TLBrack => Some (XArrFirst, FArr [] :: st)
  | TLBrace => Some (XObjFirst, st)
  | TRBrace | TRBrack | TColon | TComma => None
  end.

Definition parse_step (x : expect) (st : list frame) (t : token)
  : option (expect * list frame) :=
  match x with
  | XValue => open_value t st
  | XArrFirst =>
      match t, st with
      | TRBrack, FArr _ :: st' => Some (XDone (JArray []), st')
      | _, _ => open_value t st
      end
  | XObjFirst =>
      match t with
      | TRBrace => Some (XDone (JObject []), st)
      | TStr k => Some (XColon [] k, st)
      | _ => None
      end
  | XKey ms =>
      match t with
      | TStr k => Some (XColon ms k, st)
      | _ => None
      end
  | XColon ms k =>
      match t with
      | TColon => Some (XValue, FObj ms k :: st)
      | _ => None
      end
  | XDone v =>
      match st, t with
      | FArr es :: st', TComma => Some (XValue, FArr (v :: es) :: st')
      | FArr es :: st', TRBrack => Some (XDone (JArray (rev (v :: es))), st')
      | FObj ms k :: st', TComma => Some (XKey ((k, v) :: ms), st')
      | FObj ms k :: st', TRBrace =>
          Some (XDone (JObject (rev ((k, v) :: ms))), st')
      | _, _ => None
      end
  end.

Fixpoint parse_tokens (x : expect) (st : list frame) (ts : list token)
  : option json :=
  match ts with
  | [] => match x, st with
          | XDone v, [] => Some v
          | _, _ => None
          end
  | t :: ts' =>
      match parse_step x st t with
      | Some (x', st') => parse_tokens x' st' ts'
      | None => None
      end
  end.

(** The parser is inside an outermost object, or has just completed one. *)
Definition in_object (x : expect) (st : list frame) : Prop :=
  (st = [] /\ match x with
              | XObjFirst | XKey _ | XColon _ _ | XDone (JObject _) => True
              | _ => False
              end)
  \/ exists st' ms k, st = (st' ++ [FObj ms k])%list.

(** [JSON.parse(s)]; [None] stands for the SyntaxError. *)
Definition parse (s : string) : option json :=
  match tokens s with
  | Some ts => parse_tokens XValue [] ts
  | None => None
  end.

End Json.

(** ** [Buffer.prototype.toString('base64')] *)

Module Base64.

(** The character of a six-bit value in the standard alphabet. *)
Definition sextet (n : N) : ascii :=
  if (n <? 26)%N then ascii_of_N (n + 65)
  else if (n <? 52)%N then ascii_of_N (n - 26 + 97)
  else if (n <? 62)%N then ascii_of_N (n - 52 + 48)
  else if (n =? 62)%N then "+"%char
  else "/"%char.

Definition b (x : byte) : N := Byte.to_N x.

Definition s1 (x : N) : ascii := sextet (N.shiftr x 2).
Definition s2 (x y : N) : ascii :=
  sextet (N.lor (N.shiftl (N.land x 3) 4) (N.shiftr y 4)).
Definition s3 (y z : N) : ascii :=
  sextet (N.lor (N.shiftl (N.land y 15) 2) (N.shiftr z 6)).
Definition s4 (z : N) : ascii := sextet (N.land z 63).

(** Three bytes give four characters; one or two bytes left at the end are
    padded with [=]. *)
Fixpoint encode (bs : list byte) : string :=
  match bs with
  | [] => EmptyString
  | [x] =>
      String (s1 (b x)) (String (s2 (b x) 0) "==")
  | [x; y] =>
      String (s1 (b x)) (String (s2 (b x) (b y)) (String (s3 (b y) 0) "="))
  | x :: y :: z :: rest =>
      String (s1 (b x)) (String (s2 (b x) (b y))
        (String (s3 (b y) (b z)) (String (s4 (b z)) (encode rest))))
  end.

End Base64.

(** ** The handler *)

Module AnalyzePolicy.

Import JsString RegExp Json.

(** *** Requests, the outside world and responses *)

(** A thrown value: [message] and [stack] of the error object. *)
Record js_error : Type := mkError { message : string; stack : string }.

(** [req]: the method and the [x-api-key] header ([None]: no such header).
    The body is read by the form parser. *)
Record request : Type := mkRequest {
  method : string;
  x_api_key : option string
}.

(** [files.policy_file] as the form parser gives it. *)
Record policy_file : Type := mkFile {
  filepath : string;
  originalFilename : option string      (* [None]: null *)
}.

(** The user content of the chat-completion request: a text, or an array of
    typed parts. *)
Inductive part : Type :=
| TextPart (text : string)                      (* type: "text" *)
| ImageUrlPart (url : string) (detail : string). (* type: "image_url" *)

Inductive content : Type :=
| Text (s : string)
| Parts (ps : list part).

Record chat_message : Type := mkMessage { role : string; body : content }.

(** The call [fetch(url, {method: 'POST', headers, body})]. *)
Record completion_request : Type := mkCompletion {
  url : string;
  content_type : string;
  authorization : string;
  model : string;
  messages : list chat_message;
  max_tokens : N;
  temperature : Q
}.

(** What comes back from the call when it does not reject: the status, the
    result of [response.text()], and the result of reading
    [(await response.json()).choices[0].message.content] as a text. *)
Record http_response : Type := mkHttp {
  http_status : N;
  http_text : js_error + string;
  http_content : js_error + string
}.

Definition ok (r : http_response) : bool :=
  ((200 <=? http_status r) && (http_status r <=? 299))%N.

(** Everything the handler takes from outside the request. *)
Record world : Type := mkWorld {
  env_API_KEY : option string;
  env_OPENAI_API_KEY : option string;
  env_NODE_ENV : option string;
  form_parse : js_error + option policy_file;    (* [err], or [files.policy_file] *)
  readFileSync : string -> js_error + list byte;
  fetch : completion_request -> js_error + http_response;
  stringify_error : json -> option js_error;
                                          (* what [JSON.stringify] throws *)
  type_error : js_error;                  (* a property read on null *)
  stack_of : string -> string;            (* the stack of [new Error(msg)] *)
  date_now : N;                           (* [Date.now()] *)
  math_random : string;                   (* [Math.random().toString(36)] *)
  date_iso : string                       (* [new Date().toISOString()] *)
}.

(** The observable actions of a run, in order. *)
Inductive event : Type :=
| FormParse                               (* [form.parse(req, ...)] *)
| ReadFile (path : string)                (* [fs.readFileSync(path)] *)
| Fetch (rq : completion_request).        (* the outbound model call *)

Record response : Type := mkResponse {
  status : N;
  headers : list (string * string);
  json_body : option json                 (* [None]: [res.end()] *)
}.

(** *** Control flow inside the [try] block: a value, a thrown error, or an
    early [return res.status(..).json(..)]; the actions are logged. *)

Inductive outcome (A : Type) : Type :=
| Value (a : A)
| Thrown (e : js_error)
| Returned (st : N) (b : json).

Arguments Value {A} a.
Arguments Thrown {A} e.
Arguments Returned {A} st b.

Definition M (A : Type) : Type := list event -> outcome A * list event.

Definition ret {A} (a : A) : M A := fun t => (Value a, t).
Definition throw {A} (e : js_error) : M A := fun t => (Thrown e, t).
Definition respond {A} (st : N) (b : json) : M A := fun t => (Returned st b, t).
Definition emit (ev : event) : M unit := fun t => (Value tt, (t ++ [ev])%list).

Definition bind {A B} (m : M A) (k : A -> M B) : M B :=
  fun t =>
    match m t with
    | (Value a, t') => k a t'
    | (Thrown e, t') => (Thrown e, t')
    | (Returned st b, t') => (Returned st b, t')
    end.

Notation "x <- m ;; k" := (bind m (fun x => k))
  (at level 61, m at next level, right associativity).
Notation "m ;;; k" := (bind m (fun _ => k))
  (at level 61, right associativity).

(** A result that is either an error to throw or a value. *)
Definition lift {A} (r : js_error + A) : M A :=
  match r with
  | inl e => throw e
  | inr a => ret a
  end.

(** *** The pieces of the handler, named as in the source *)

Definition cors_headers : list (string * string) :=
  [ ("Access-Control-Allow-Credentials", "true");
    ("Access-Control-Allow-Origin", "*");
    ("Access-Control-Allow-Methods", "GET,OPTIONS,PATCH,DELETE,POST,PUT");
    ("Access-Control-Allow-Headers",
     "X-CSRF-Token, X-Requested-With, Accept, Accept-Version, Content-Length, Content-MD5, Content-Type, Date, X-Api-Version, X-API-Key") ].

(** [a || b] on a value that is a string or undefined. *)
Definition or_else (a : option string) (d : string) : string :=
  match a with
  | Some EmptyString | None => d
  | Some s => s
  end.

Definition serverApiKey (w : world) : string :=
  or_else (env_API_KEY w) "suRew@y_Insur@nce_2024_S3cur3_K3y".

(** [clientApiKey !== serverApiKey] *)
Definition key_mismatch (clientApiKey : option string) (server : string) : bool :=
  match clientApiKey with
  | Some k => negb (String.eqb k server)
  | None => true
  end.

(** [fileName.split('.').pop().toLowerCase()]; [None] is the TypeError of a
    method call on undefined. *)
Definition fileExtension (fileName : string) : option string :=
  option_map toLowerCase (pop (split "." fileName)).

Definition is_image (ext : string) : bool :=
  existsb (String.eqb ext) ["jpg"; "jpeg"; "png"].

Definition systemPrompt : string :=
  "You are an expert insurance analyst specializing in Workers' Compensation policies. Analyze insurance policies and provide actionable insights to help businesses save money and optimize coverage.".

(** A text between double quotes. *)
Definition q (s : string) : string := dq ++ s ++ dq.

Definition userPrompt (fileName : string) : string :=
  String.concat lf [
    "I have uploaded a Workers' Compensation insurance policy document named "
      ++ q fileName ++ ". Please analyze this policy and provide:";
    "";
    "1. **Executive Summary**:";
    "   - Current annual premium (if visible in the document)";
    "   - Overall policy assessment";
    "   - Estimated savings potential (as a percentage range, e.g., "
      ++ q "15-25%" ++ ")";
    "   - Confidence score (0-100) for your analysis";
    "";
    "2. **Savings Opportunities**:";
    "   - List 3-5 specific immediate actions that could reduce premiums";
    "   - Estimated savings range";
    "";
    "3. **Coverage Analysis**:";
    "   - Key coverage details found in the policy";
    "   - Any gaps or redundancies identified";
    "   - Compliance with NY state requirements";
    "";
    "4. **Risk Assessment**:";
    "   - Industry classification accuracy";
    "   - Experience modification factors (if mentioned)";
    "   - Safety program recommendations";
    "";
    "5. **Recommendations**:";
    "   - Priority actions to take immediately";
    "   - Timeline for implementation";
    "";
    "Please respond with a JSON object in this exact format:";
    "{";
    "  " ++ q "executive_summary" ++ ": {";
    "    " ++ q "current_premium" ++ ": " ++ q "string or null" ++ ",";
    "    " ++ q "overall_assessment" ++ ": " ++ q "string" ++ ",";
    "    " ++ q "savings_potential" ++ ": " ++ q "string (e.g., '15-25%')"
      ++ ",";
    "    " ++ q "confidence_score" ++ ": number";
    "  },";
    "  " ++ q "savings_opportunities" ++ ": {";
    "    " ++ q "immediate_actions" ++ ": [" ++ q "action1" ++ ", "
      ++ q "action2" ++ ", " ++ q "action3" ++ "],";
    "    " ++ q "estimated_savings_range" ++ ": " ++ q "string";
    "  },";
    "  " ++ q "coverage_analysis" ++ ": {";
    "    " ++ q "key_details" ++ ": [" ++ q "detail1" ++ ", " ++ q "detail2"
      ++ "],";
    "    " ++ q "gaps" ++ ": [" ++ q "gap1" ++ ", " ++ q "gap2" ++ "],";
    "    " ++ q "compliance_status" ++ ": " ++ q "string";
    "  },";
    "  " ++ q "risk_assessment" ++ ": {";
    "    " ++ q "classification_accuracy" ++ ": " ++ q "string" ++ ",";
    "    " ++ q "recommendations" ++ ": [" ++ q "rec1" ++ ", " ++ q "rec2"
      ++ "]";
    "  },";
    "  " ++ q "priority_recommendations" ++ ": [" ++ q "rec1" ++ ", "
      ++ q "rec2" ++ ", " ++ q "rec3" ++ "]";
    "}"
  ].

(** **** The Model Invoker *)

Definition pdfNote : string :=
  "Note: This is a PDF document. Please analyze based on typical Workers' Compensation policy structures.".

Definition imageType (fileExtension : string) : string :=
  if String.eqb fileExtension "png" then "image/png" else "image/jpeg".

(** [contentArray] of the branch for PDFs and images. *)
Definition contentArray (fileExtension fileName : string)
    (fileContent : list byte) : list part :=
  let base64Content := Base64.encode fileContent in
  if is_image fileExtension then
    [ TextPart (userPrompt fileName);
      ImageUrlPart
        ("data:" ++ imageType fileExtension ++ ";base64," ++ base64Content)
        "high" ]
  else
    [ TextPart (userPrompt fileName ++ lf ++ lf ++ pdfNote) ].

(** The content of the user message, by extension. *)
Definition userContent (fileExtension fileName : string)
    (fileContent : list byte) : content :=
  if String.eqb fileExtension "pdf" || is_image fileExtension
  then Parts (contentArray fileExtension fileName fileContent)
  else Text (userPrompt fileName).

Definition chat_request (openaiApiKey : string) (c : content)
  : completion_request :=
  {| url := "https://api.openai.com/v1/chat/completions";
     content_type := "application/json";
     authorization := "Bearer " ++ openaiApiKey;
     model := "gpt-4o";
     messages := [ mkMessage "system" (Text systemPrompt);
                   mkMessage "user" c ];
     max_tokens := 2000;
     temperature := 7 # 10 |}.

Definition new_error (w : world) (msg : string) : js_error :=
  mkError msg (stack_of w msg).

(** The call and the reading of the reply; the same in both branches. *)
Definition call_model (w : world) (rq : completion_request) : M string :=
  emit (Fetch rq) ;;;
  response <- lift (fetch w rq) ;;
  if ok response then lift (http_content response)
  else
    _errorText <- lift (http_text response) ;;
    throw (new_error w ("OpenAI API error: " ++ decimal (http_status response))).

(** **** The Result Normalizer *)

(** [/```json\n?/g] *)
Definition fence_json : regex := (lit "```json" ++ [(Chr "010", Opt)])%list.

(** [/```\n?/g] *)
Definition fence : regex := (lit "```" ++ [(Chr "010", Opt)])%list.

(** [/\{[\s\S]*\}/] *)
Definition braces : regex := [(Chr "{", Once); (AnyChr, Star); (Chr "}", Once)].

Definition cleanedResult (analysisResult : string) : string :=
  trim (remove_all fence (remove_all fence_json analysisResult)).

Definition jsonMatch (cleaned : string) : option string := exec braces cleaned.

(** An object literal. *)
Definition obj (l : list (string * json)) : json :=
  JObject (map (fun kv => (units (fst kv), snd kv)) l).

(** The data built in the [catch] of the parse. *)
Definition fallback (analysisResult : string) : json :=
  obj [ ("executive_summary",
         obj [ ("current_premium", JText "Analysis completed");
               ("overall_assessment", JText (substring 0 300 analysisResult));
               ("savings_potential", JText "15-25%");
               ("confidence_score", JInt 85) ]);
        ("savings_opportunities",
         obj [ ("immediate_actions",
                JArray [ JText "Review classification codes for accuracy";
                         JText "Verify payroll calculations";
                         JText "Check experience modification factor" ]);
               ("estimated_savings_range", JText "15-25%") ]);
        ("full_analysis_text", JText analysisResult) ].

(** [analysisData] after the inner [try]/[catch]: the parsed span, or the
    fallback when there is no span or [JSON.parse] throws. *)
Definition analysisData (analysisResult : string) : json :=
  match jsonMatch (cleanedResult analysisResult) with
  | Some span =>
      match parse span with
      | Some v => v
      | None => fallback analysisResult
      end
  | None => fallback analysisResult
  end.

(** **** The Response Assembler *)

Definition analysisId (w : world) : string :=
  "wc_" ++ decimal (date_now w) ++ "_" ++ substr 2 9 (math_random w).

Definition success_body (w : world) (data : json)
    (fileName fileExtension : string) : json :=
  obj [ ("success", JBool true);
        ("analysis_id", JText (analysisId w));
        ("data", data);
        ("metadata",
         obj [ ("file_name", JText fileName);
               ("file_type", JText fileExtension);
               ("processed_at", JText (date_iso w));
               ("model_used", JText "gpt-4o") ]) ].

Definition failure_body (msg : string) : json :=
  obj [ ("success", JBool false); ("error", JText msg) ].

(** [process.env.NODE_ENV === 'development'] *)
Definition is_development (w : world) : bool :=
  match env_NODE_ENV w with
  | Some v => String.eqb v "development"
  | None => false
  end.

(** The body built in the outer [catch]; [details] is undefined, and so
    absent from the JSON text, outside development. *)
Definition error_body (w : world) (error : js_error) : json :=
  obj ([ ("success", JBool false);
         ("error", JText (or_else (Some (message error))
                                  "Failed to analyze policy")) ]
       ++ if is_development w
          then [ ("details", JText (stack error)) ]
          else [])%list.

(** **** The handler *)

(** [return res.status(st).json(b)] inside the [try]: when the
    serialization of [b] throws, nothing has been sent and the error goes to
    the [catch]. *)
Definition send_json (w : world) (st : N) (b : json) : M (N * json) :=
  match stringify_error w b with
  | Some e => throw e
  | None => ret (st, b)
  end.

(** The [try] block: its value is the final response. *)
Definition try_block (w : world) : M (N * json) :=
  emit FormParse ;;;
  policyFile <- lift (form_parse w) ;;
  match policyFile with
  | None => respond 400 (failure_body "No file uploaded")
  | Some policyFile =>
      emit (ReadFile (filepath policyFile)) ;;;
      fileContent <- lift (readFileSync w (filepath policyFile)) ;;
      fileName <- match originalFilename policyFile with
                  | Some n => ret n
                  | None => throw (type_error w)
                  end ;;
      fileExtension <- match fileExtension fileName with
                       | Some e => ret e
                       | None => throw (type_error w)
                       end ;;
      openaiApiKey <- match env_OPENAI_API_KEY w with
                      | Some EmptyString | None =>
                          throw (new_error w "OPENAI_API_KEY not configured")
                      | Some k => ret k
                      end ;;
      analysisResult <-
        call_model w
          (chat_request openaiApiKey
             (userContent fileExtension fileName fileContent)) ;;
      send_json w 200
        (success_body w (analysisData analysisResult) fileName fileExtension)
  end.

Definition handler (w : world) (req : request) : response * list event :=
  if String.eqb (method req) "OPTIONS" then
    (mkResponse 200 cors_headers None, [])
  else if negb (String.eqb (method req) "POST") then
    (mkResponse 405 cors_headers (Some (failure_body "Method not allowed")), [])
  else if key_mismatch (x_api_key req) (serverApiKey w) then
    (mkResponse 401 cors_headers (Some (failure_body "Invalid API key")), [])
  else
    match try_block w [] with
    | (Value (st, b), t) => (mkResponse st cors_headers (Some b), t)
    | (Returned st b, t) => (mkResponse st cors_headers (Some b), t)
    | (Thrown error, t) =>
        (mkResponse 500 cors_headers (Some (error_body w error)), t)
    end.

(** Did the run make the outbound model call? *)
Definition is_fetch (ev : event) : bool :=
  match ev with
  | Fetch _ => true
  | _ => false
  end.

(** Does the normalizer end in its [catch]: no span, or a span that
    [JSON.parse] rejects? *)
Definition takes_fallback (analysisResult : string) : bool :=
  match jsonMatch (cleanedResult analysisResult) with
  | Some span =>
      match parse span with
      | Some _ => false
      | None => true
      end
  | None => true
  end.

(** [raw] is an object text cut short: it starts with an opening brace,
    holds no three backquotes in a row, and is the beginning of a text that
    [JSON.parse] accepts, of which more than white space is missing. *)
Definition cut_short (raw : string) : Prop :=
  exists rest v,
    startsWith "{" raw = true
    /\ includes "```" raw = false
    /\ parse (raw ++ rest) = Some v
    /\ blank rest = false.

(** Is the content one text, as a bare string or as a single text part,
    that carries the note? *)
Definition text_only_with_note (c : content) : bool :=
  match c with
  | Text t => includes pdfNote t
  | Parts [TextPart t] => includes pdfNote t
  | Parts _ => false
  end.

End AnalyzePolicy.

(** ** Sample runs *)

Module Scenario.

Import JsString Json AnalyzePolicy.

(** The first bytes of a PDF file. *)
Definition sample_bytes : list byte := [x25; x50; x44; x46; x2d]%byte.

Definition sample_file (name : string) : policy_file :=
  mkFile "/tmp/upload_3f9a" (Some name).

(** A world with both keys configured, in which the form parser gives
    [files], every file reads as [sample_bytes], the model answers 200
    with the text [reply] and every value can be serialized. *)
Definition sample_world (files : option policy_file) (reply : string) : world :=
  {| env_API_KEY := Some "s3cret";
     env_OPENAI_API_KEY := Some "sk-test";
     env_NODE_ENV := Some "production";
     form_parse := inr files;
     readFileSync := fun _ => inr sample_bytes;
     fetch := fun _ => inr (mkHttp 200 (inr reply) (inr reply));
     stringify_error := fun _ => None;
     type_error := mkError "Cannot read properties of null" "";
     stack_of := fun _ => "";
     date_now := 1700000000000;
     math_random := "0.4fzyo82mvyr";
     date_iso := "2023-11-14T22:13:20.000Z" |}.

Definition post (key : option string) : request := mkRequest "POST" key.

(** The reply of the fenced-JSON scenario. *)
Definition fenced_reply : string :=
  "```json" ++ lf ++ "{" ++ q "executive_summary" ++ ":{"
  ++ q "confidence_score" ++ ":90}}" ++ lf ++ "```".

(** A reply cut off in the middle of the object. *)
Definition truncated_reply : string :=
  "{" ++ q "executive_summary" ++ ":{" ++ q "confidence_score" ++ ":9".

(** An array cut off after its first element, a complete object. *)
Definition truncated_array_reply : string :=
  "[{" ++ q "a" ++ ":1},{" ++ q "b" ++ ":".

(** Plain prose. *)
Definition prose_reply : string := "Sorry, I cannot process this.".

(** Prose around an object, and around two of them. *)
Definition embedded_reply : string := "Here is the analysis: {}".
Definition two_objects_reply : string := "Result: {} and {}.".

(** A PDF upload answered with the empty object, and with prose; a form
    without a file. *)
Definition world_empty_object : world :=
  sample_world (Some (sample_file "policy.pdf")) "{}".
Definition world_prose : world :=
  sample_world (Some (sample_file "policy.pdf")) prose_reply.
Definition world_no_file : world := sample_world None "{}".

(** Requests with the configured key and with another one. *)
Definition good_post : request := post (Some "s3cret").
Definition bad_post : request := post (Some "guess").

End Scenario.

(** ** More sample runs *)

Module Variations.

Import JsString Json AnalyzePolicy Scenario.


(** A world given by its environment and by what the form parser, the file
    system and the model API answer. *)
Definition make_world (api_key openai_key node_env : option string)
    (form : js_error + option policy_file)
    (read : js_error + list byte)
    (answer : js_error + http_response) : world :=
  {| env_API_KEY := api_key;
     env_OPENAI_API_KEY := openai_key;
     env_NODE_ENV := node_env;
     form_parse := form;
     readFileSync := fun _ => read;
     fetch := fun _ => answer;
     stringify_error := fun _ => None;
     type_error := mkError "Cannot read properties of null (reading 'split')"
                     "TypeError: Cannot read properties of null";
     stack_of := fun msg => "Error: " ++ msg;
     date_now := 1700000000000;
     math_random := "0.4fzyo82mvyr";
     date_iso := "2023-11-14T22:13:20.000Z" |}.

Definition pdf_upload : js_error + option policy_file :=
  inr (Some (sample_file "policy.pdf")).

Definition answer_ok (reply : string) : js_error + http_response :=
  inr (mkHttp 200 (inr reply) (inr reply)).

(** The model API answers 429. *)
Definition answer_429 : js_error + http_response :=
  inr (mkHttp 429 (inr "rate limit") (inl (mkError "no choices" ""))).

(** No [API_KEY] in the environment. *)
Definition world_default_secret : world :=
  make_world None (Some "sk-test") None pdf_upload (inr sample_bytes)
    (answer_ok "{}").

(** No [OPENAI_API_KEY] in the environment. *)
Definition world_no_model_key : world :=
  make_world (Some "s3cret") None None pdf_upload (inr sample_bytes)
    (answer_ok "{}").

Definition world_rate_limited : world :=
  make_world (Some "s3cret") (Some "sk-test") None pdf_upload
    (inr sample_bytes) answer_429.

(** The form parser fails: the upload is over the size limit. *)
Definition world_form_error : world :=
  make_world (Some "s3cret") (Some "sk-test") (Some "development")
    (inl (mkError "maxFileSize exceeded" "Error: maxFileSize exceeded"))
    (inr sample_bytes) (answer_ok "{}").

(** The temporary file cannot be read. *)
Definition world_read_error : world :=
  make_world (Some "s3cret") (Some "sk-test") None pdf_upload
    (inl (mkError "ENOENT: no such file or directory" ""))
    (answer_ok "{}").

(** The world [w] in which serializing any value throws. *)
Definition with_stringify_error (w : world) (e : js_error) : world :=
  {| env_API_KEY := env_API_KEY w;
     env_OPENAI_API_KEY := env_OPENAI_API_KEY w;
     env_NODE_ENV := env_NODE_ENV w;
     form_parse := form_parse w;
     readFileSync := readFileSync w;
     fetch := fetch w;
     stringify_error := fun _ => Some e;
     type_error := type_error w;
     stack_of := stack_of w;
     date_now := date_now w;
     math_random := math_random w;
     date_iso := date_iso w |}.

Definition stack_overflow : js_error :=
  mkError "Maximum call stack size exceeded"
    "RangeError: Maximum call stack size exceeded".

(** The model answers prose and the envelope cannot be serialized. *)
Definition world_unserializable : world :=
  with_stringify_error world_prose stack_overflow.

(** A request with the built-in secret. *)
Definition default_post : request :=
  post (Some "suRew@y_Insur@nce_2024_S3cur3_K3y").

Definition get_request : request := mkRequest "GET" (Some "s3cret").

End Variations.

(** ** The value of a base64 character *)

Module Base64Value.

Import JsString.

(** The six-bit value of a character of the alphabet, the inverse of
    [Base64.sextet]; 0 for any other character. *)
Definition value_of (a : ascii) : N :=
  let n := code a in
  if ((65 <=? n) && (n <=? 90))%N then (n - 65)%N
  else if ((97 <=? n) && (n <=? 122))%N then (n - 97 + 26)%N
  else if ((48 <=? n) && (n <=? 57))%N then (n - 48 + 52)%N
  else if (n =? 43)%N then 62%N
  else if (n =? 47)%N then 63%N
  else 0%N.

(** Does [p] hold of every number below [n]? *)
Fixpoint all_below (n : nat) (p : N -> bool) : bool :=
  match n with
  | O => true
  | S k => p (N.of_nat k) && all_below k p
  end.

End Base64Value.

(** * Properties *)

(** ** Strings *)

Module JsStringFacts.

Import JsString.

Lemma substring_0_0 (s : string) : String.substring 0 0 s = EmptyString.
Proof. destruct s; reflexivity. Qed.

(** [split] never gives the empty array, so [pop] on it is defined. *)
Lemma split_not_nil (sep : ascii) (s : string) : split sep s <> [].
Proof.
  induction s as [|a s IH]; simpl; [discriminate|].
  destruct (Ascii.eqb a sep); [discriminate|].
  destruct (split sep s); [contradiction | discriminate].
Qed.

(** A text without the separator is its own single segment. *)
Lemma split_without_sep (sep : ascii) (s : string) :
  indexOf sep s = None -> split sep s = [s].
Proof.
  induction s as [|a s IH]; simpl; [reflexivity|].
  destruct (Ascii.eqb a sep); [discriminate|].
  destruct (indexOf sep s); [discriminate|].
  intros _. rewrite IH; reflexivity.
Qed.

(** [indexOf] is the first occurrence. *)
Lemma indexOf_first (a : ascii) (s : string) (i : nat) :
  indexOf a s = Some i ->
  String.get i s = Some a /\ forall k, k < i -> String.get k s <> Some a.
Proof.
  revert i; induction s as [|b s IH]; simpl; intros i H; [discriminate|].
  destruct (Ascii.eqb_spec b a) as [->|Hne].
  - injection H as <-. split; [reflexivity | intros k Hk; lia].
  - destruct (indexOf a s) as [i'|]; [|discriminate].
    injection H as <-. destruct (IH i' eq_refl) as [Hget Hmin].
    split; [exact Hget|].
    intros [|k] Hk; simpl.
    + intros E; injection E as E; contradiction.
    + apply Hmin; lia.
Qed.

(** [lastIndexOf] is the last occurrence. *)
Lemma lastIndexOf_last (a : ascii) (s : string) (j : nat) :
  lastIndexOf a s = Some j ->
  String.get j s = Some a /\ forall k, j < k -> String.get k s <> Some a.
Proof.
  revert j; induction s as [|b s IH]; simpl; intros j H; [discriminate|].
  destruct (lastIndexOf a s) as [j'|] eqn:E.
  - injection H as <-. destruct (IH j' eq_refl) as [Hget Hmax].
    split; [exact Hget|].
    intros [|k] Hk; [lia|]. simpl. apply Hmax; lia.
  - destruct (Ascii.eqb_spec b a) as [->|Hne]; [|discriminate].
    injection H as <-. split; [reflexivity|].
    intros [|k] Hk; [lia|]. simpl. clear Hk IH.
    revert k; induction s as [|c s IHs]; intros k; simpl; [discriminate|].
    simpl in E. destruct (lastIndexOf a s); [discriminate|].
    destruct (Ascii.eqb_spec c a) as [->|Hc]; [discriminate|].
    destruct k as [|k]; [intros E'; injection E' as E'; contradiction|].
    apply IHs; reflexivity.
Qed.

(** An occurrence at [i] puts the first one at or before [i]. *)
Lemma indexOf_le (a : ascii) (s : string) (i : nat) :
  String.get i s = Some a -> exists i0, indexOf a s = Some i0 /\ i0 <= i.
Proof.
  revert i; induction s as [|b s IH]; simpl; intros i H; [discriminate|].
  destruct (Ascii.eqb_spec b a) as [->|Hne].
  - exists 0; split; [reflexivity | lia].
  - destruct i as [|i]; [injection H as H; contradiction|].
    destruct (IH i H) as [i0 [E Hle]]. rewrite E.
    exists (S i0); split; [reflexivity | lia].
Qed.

(** An occurrence at [j] puts the last one at or after [j]. *)
Lemma lastIndexOf_ge (a : ascii) (s : string) (j : nat) :
  String.get j s = Some a -> exists j0, lastIndexOf a s = Some j0 /\ j <= j0.
Proof.
  revert j; induction s as [|b s IH]; simpl; intros j H; [discriminate|].
  destruct j as [|j].
  - injection H as ->. destruct (lastIndexOf a s) as [j'|].
    + exists (S j'); split; [reflexivity | lia].
    + rewrite Ascii.eqb_refl. exists 0; split; [reflexivity | lia].
  - destruct (IH j H) as [j0 [E Hle]]. rewrite E.
    exists (S j0); split; [reflexivity | lia].
Qed.

Lemma startsWith_refl_app (p s : string) : startsWith p (p ++ s) = true.
Proof.
  induction p as [|a p IH]; simpl; [reflexivity|].
  rewrite Ascii.eqb_refl; exact IH.
Qed.

(** A text includes what it ends with. *)
Lemma includes_app_r (p s : string) : includes p (s ++ p) = true.
Proof.
  induction s as [|a s IH]; simpl.
  - replace p with (p ++ "") at 2 by (induction p; simpl; congruence).
    destruct p; simpl; [reflexivity|].
    rewrite Ascii.eqb_refl, startsWith_refl_app; reflexivity.
  - rewrite IH. apply orb_true_r.
Qed.

(** What a text includes, so does the text with more put in front. *)
Lemma includes_skip (p s t : string) :
  includes p t = true -> includes p (s ++ t) = true.
Proof.
  intros H. induction s as [|a s IH]; simpl; [exact H|].
  rewrite IH. apply orb_true_r.
Qed.

End JsStringFacts.

(** ** The brace pattern *)

Module RegExpFacts.

Import JsString RegExp JsStringFacts.

(** [[\s\S]*\}] at the start of a text runs through its last closing
    brace. *)
Lemma any_star_rbrace (t : string) :
  option_map fst (match_here [(AnyChr, Star); (Chr "}", Once)] t)
  = option_map (fun j => String.substring 0 (S j) t) (lastIndexOf "}" t).
Proof.
  induction t as [|a t IH]; [reflexivity|].
  cbn [match_here accepts] in *.
  cbn [lastIndexOf].
  destruct (lastIndexOf "}" t) as [j|].
  - match type of IH with option_map fst ?x = _ => destruct x as [[m rest]|] end;
      [|discriminate].
    simpl in IH |- *. injection IH as ->. reflexivity.
  - match type of IH with option_map fst ?x = _ => destruct x as [[m rest]|] end;
      [discriminate|].
    destruct (Ascii.eqb a "}"); simpl; [|reflexivity].
    rewrite substring_0_0; reflexivity.
Qed.

(** The pattern [/\{[\s\S]*\}/] finds exactly the widest span. *)
Lemma exec_braces (s : string) :
  exec [(Chr "{", Once); (AnyChr, Star); (Chr "}", Once)] s = widest_span s.
Proof.
  unfold widest_span.
  induction s as [|a s IH]; [reflexivity|].
  cbn [exec]. 
  change (match_here [(Chr "{", Once); (AnyChr, Star); (Chr "}", Once)] (String a s))
    with (if Ascii.eqb a "{"
          then consume a (match_here [(AnyChr, Star); (Chr "}", Once)] s)
          else None).
  pose proof (any_star_rbrace s) as Hstar.
  cbn [indexOf lastIndexOf].
  destruct (Ascii.eqb_spec a "{") as [->|Hne].
  - destruct (match_here [(AnyChr, Star); (Chr "}", Once)] s) as [[m rest]|];
      destruct (lastIndexOf "}" s) as [j|]; simpl in Hstar; try discriminate.
    + injection Hstar as ->. simpl.
      unfold JsString.substring. simpl. reflexivity.
    + simpl. rewrite IH. destruct (indexOf "{" s); reflexivity.
  - rewrite IH. destruct (indexOf "{" s) as [i|]; simpl; [|reflexivity].
    destruct (lastIndexOf "}" s) as [j|]; simpl.
    + change (S i <? S j)%nat with (i <? j)%nat. destruct (i <? j)%nat; reflexivity.
    + destruct (Ascii.eqb a "}"); reflexivity.
Qed.

(** A match of the pattern starts with the opening brace. *)
Lemma exec_braces_starts (s m : string) :
  exec [(Chr "{", Once); (AnyChr, Star); (Chr "}", Once)] s = Some m ->
  exists m', m = String "{" m'.
Proof.
  induction s as [|a s IH]; [discriminate|].
  cbn [exec].
  change (match_here [(Chr "{", Once); (AnyChr, Star); (Chr "}", Once)] (String a s))
    with (if Ascii.eqb a "{"
          then consume a (match_here [(AnyChr, Star); (Chr "}", Once)] s)
          else None).
  destruct (Ascii.eqb_spec a "{") as [->|Hne]; [|exact IH].
  destruct (match_here [(AnyChr, Star); (Chr "}", Once)] s) as [[m0 rest]|];
    simpl; [|exact IH].
  intros H; injection H as <-. eexists; reflexivity.
Qed.

End RegExpFacts.

(** ** [JSON.parse] on a text that starts with a brace *)

Module JsonFacts.

Import JsString Json.

(** The lexer only adds tokens. *)
Lemma start_char_extends (acc acc' : list token) (a : ascii) (st' : lexstate) :
  start_char acc a = Some (st', acc') -> exists l, acc' = (l ++ acc)%list.
Proof.
  unfold start_char.
  repeat match goal with
         | |- context [if ?b then _ else _] => destruct b
         | |- context [match digit ?a with _ => _ end] => destruct (digit a) as [[|?]|]
         end;
    intros H; try discriminate; injection H as _ <-;
    solve [exists []; reflexivity | eexists [_]; reflexivity].
Qed.

Lemma lex_step_extends (st st' : lexstate) (acc acc' : list token) (a : ascii) :
  lex_step st acc a = Some (st', acc') -> exists l, acc' = (l ++ acc)%list.
Proof.
  destruct st as [|u|u|u k v|ns n|rest t]; simpl.
  - apply start_char_extends.
  - repeat match goal with
           | |- context [if ?b then _ else _] => destruct b
           end; intros H; try discriminate; injection H as _ <-;
      solve [exists []; reflexivity | eexists [_]; reflexivity].
  - destruct (Ascii.eqb a "u"); [|destruct (escape a)];
      intros H; try discriminate; injection H as _ <-; exists []; reflexivity.
  - destruct (hex_digit a); [|discriminate].
    destruct k as [|[|[|[|k]]]]; intros H; injection H as _ <-;
      exists []; reflexivity.
  - destruct (num_step ns n a) as [[ns' n']|].
    + intros H; injection H as _ <-. exists []; reflexivity.
    + destruct (num_complete ns); [|discriminate].
      intros H. destruct (start_char_extends _ _ _ _ H) as [l ->].
      exists (l ++ [TNum (num_value n)])%list.
      rewrite <- app_assoc. reflexivity.
  - destruct rest as [|b rest]; [discriminate|].
    destruct (Ascii.eqb a b); [|discriminate].
    destruct rest; intros H; injection H as _ <-;
      solve [exists []; reflexivity | eexists [_]; reflexivity].
Qed.

Lemma lex_extends (s : string) (st : lexstate) (acc ts : list token) :
  lex st acc s = Some ts -> exists more, ts = (rev acc ++ more)%list.
Proof.
  revert st acc; induction s as [|a s IH]; intros st acc; simpl.
  - destruct st as [| | | |ns n|]; simpl; try discriminate.
    + intros H; injection H as <-. exists []. rewrite app_nil_r. reflexivity.
    + destruct (num_complete ns); [|discriminate].
      intros H; injection H as <-. simpl. eexists. reflexivity.
  - destruct (lex_step st acc a) as [[st' acc']|] eqn:E; [|discriminate].
    intros H. destruct (IH _ _ H) as [more ->].
    destruct (lex_step_extends _ _ _ _ _ E) as [l ->].
    rewrite rev_app_distr, <- app_assoc. eexists. reflexivity.
Qed.

Lemma in_object_step (x x' : expect) (st st' : list frame) (t : token) :
  in_object x st -> parse_step x st t = Some (x', st') -> in_object x' st'.
Proof.
  intros [[-> Hx] | (base & ms & k & ->)].
  - destruct x as [| | |ms|ms k|v]; try contradiction; simpl.
    + destruct t; intros H; try discriminate; injection H as <- <-;
        left; (split; [reflexivity | exact I]).
    + destruct t; intros H; try discriminate; injection H as <- <-.
      left; (split; [reflexivity | exact I]).
    + destruct t; intros H; try discriminate; injection H as <- <-.
      right. exists [], ms, k. reflexivity.
    + discriminate.
  - assert (Hpush : forall f, exists b' ms' k',
               (f :: base ++ [FObj ms k])%list = (b' ++ [FObj ms' k'])%list).
    { intros f. exists (f :: base), ms, k. reflexivity. }
    assert (Hkeep : exists b' ms' k',
               (base ++ [FObj ms k])%list = (b' ++ [FObj ms' k'])%list).
    { exists base, ms, k. reflexivity. }
    assert (Hopen : forall y s, open_value t (base ++ [FObj ms k])%list = Some (y, s) ->
                                 in_object y s).
    { intros y s. destruct t; simpl; intros H; try discriminate;
        injection H as <- <-; right; solve [apply Hkeep | apply Hpush]. }
    destruct x as [| | |ms0|ms0 k0|v]; simpl.
    + apply Hopen.
    + destruct t; try apply Hopen.
      destruct base as [|f base]; simpl.
      * intros H; discriminate.
      * destruct f; [|intros H; discriminate].
        intros H; injection H as <- <-. right. exists base, ms, k. reflexivity.
    + destruct t; intros H; try discriminate; injection H as <- <-;
        right; apply Hkeep.
    + destruct t; intros H; try discriminate; injection H as <- <-;
        right; apply Hkeep.
    + destruct t; intros H; try discriminate; injection H as <- <-.
      right. apply Hpush.
    + destruct base as [|f base]; simpl.
      * destruct t; intros H; try discriminate; injection H as <- <-;
          left; (split; [reflexivity | exact I]).
      * destruct f as [es|ms1 k1]; destruct t; intros H; try discriminate;
          injection H as <- <-; right;
          solve [ exists base, ms, k; reflexivity
                | exists (FArr (v :: es) :: base), ms, k; reflexivity ].
Qed.

Lemma in_object_parse (ts : list token) (x : expect) (st : list frame) (v : json) :
  in_object x st -> parse_tokens x st ts = Some v -> exists ms, v = JObject ms.
Proof.
  revert x st; induction ts as [|t ts IH]; intros x st Hin; simpl.
  - destruct Hin as [[-> Hx] | (base & ms & k & ->)].
    + destruct x as [| | | | |w]; try discriminate.
      destruct w; try contradiction.
      intros H; injection H as <-. eexists; reflexivity.
    + destruct x; try discriminate. destruct base; discriminate.
  - destruct (parse_step x st t) as [[x' st']|] eqn:E; [|discriminate].
    apply IH. exact (in_object_step _ _ _ _ _ Hin E).
Qed.

(** A text that starts with an opening brace parses, if at all, to an
    object. *)
Lemma parse_brace_object (s : string) (v : json) :
  parse (String "{" s) = Some v -> exists ms, v = JObject ms.
Proof.
  unfold parse, tokens. simpl.
  destruct (lex LStart [TLBrace] s) as [ts|] eqn:E; [|discriminate].
  destruct (lex_extends _ _ _ _ E) as [more ->]. simpl.
  apply in_object_parse. left. split; [reflexivity | exact I].
Qed.

(** *** A text that parses cannot be continued *)

(** Lexing a text in two parts. *)
Lemma lex_app (s1 s2 : string) (st : lexstate) (acc : list token) :
  lex st acc (s1 ++ s2)
  = match lex_run st acc s1 with
    | Some (st', acc') => lex st' acc' s2
    | None => None
    end.
Proof.
  revert st acc; induction s1 as [|a s1 IH]; intros st acc; simpl;
    [reflexivity|].
  destruct (lex_step st acc a) as [[st' acc']|]; [apply IH | reflexivity].
Qed.

Lemma lex_run_app (s1 s2 : string) (st : lexstate) (acc : list token) :
  lex_run st acc (s1 ++ s2)
  = match lex_run st acc s1 with
    | Some (st', acc') => lex_run st' acc' s2
    | None => None
    end.
Proof.
  revert st acc; induction s1 as [|a s1 IH]; intros st acc; simpl;
    [reflexivity|].
  destruct (lex_step st acc a) as [[st' acc']|]; [apply IH | reflexivity].
Qed.

(** After a closing brace the lexer is not inside a number. *)
Lemma after_closing_brace (st st' : lexstate) (acc acc' : list token) :
  lex_step st acc "}" = Some (st', acc') ->
  forall ns n, st' <> LNum ns n.
Proof.
  intros H ns n E. subst st'.
  destruct st as [|u|u|u k v|ns0 n0|rest t].
  1-4: simpl in H; discriminate H.
  - destruct ns0; cbv -[num_value] in H; discriminate H.
  - cbn [lex_step] in H. destruct rest as [|b rest]; [discriminate H|].
    destruct (Ascii.eqb "}" b); [|discriminate H].
    destruct rest; discriminate H.
Qed.

(** A text that ends with a closing brace and lexes ends between tokens. *)
Lemma lex_closing_brace (s : string) (st : lexstate) (acc ts : list token) :
  lex st acc (s ++ "}") = Some ts ->
  exists acc', lex_run st acc (s ++ "}") = Some (LStart, acc')
               /\ ts = rev acc'.
Proof.
  rewrite lex_app, lex_run_app.
  destruct (lex_run st acc s) as [[st1 acc1]|]; [|discriminate].
  simpl. destruct (lex_step st1 acc1 "}") as [[st2 acc2]|] eqn:E;
    [|discriminate].
  pose proof (after_closing_brace _ _ _ _ E) as Hn.
  destruct st2; simpl; try discriminate.
  - intros H; injection H as <-. exists acc2. split; reflexivity.
  - destruct (Hn ns n eq_refl).
Qed.

Lemma start_char_grows (acc acc' : list token) (a : ascii) (st' : lexstate) :
  start_char acc a = Some (st', acc') ->
  length acc + (if is_ws a then 0 else 1) <= length acc' + pending st'.
Proof.
  unfold start_char. destruct (is_ws a).
  - intros H; injection H as <- <-. simpl. lia.
  - repeat match goal with
           | |- context [if ?b then _ else _] => destruct b
           | |- context [match digit ?a with _ => _ end] =>
               destruct (digit a) as [[|?]|]
           end;
      intros H; try discriminate; injection H as <- <-; simpl; lia.
Qed.

Lemma lex_step_grows (st st' : lexstate) (acc acc' : list token) (a : ascii) :
  lex_step st acc a = Some (st', acc') ->
  length acc + pending st <= length acc' + pending st'.
Proof.
  destruct st as [|u|u|u k v|ns n|rest t]; simpl.
  - intros H. pose proof (start_char_grows _ _ _ _ H).
    destruct (is_ws a); lia.
  - repeat match goal with
           | |- context [if ?b then _ else _] => destruct b
           end; intros H; try discriminate; injection H as <- <-; simpl; lia.
  - destruct (Ascii.eqb a "u"); [|destruct (escape a)];
      intros H; try discriminate; injection H as <- <-; simpl; lia.
  - destruct (hex_digit a); [|discriminate].
    destruct k as [|[|[|[|k]]]]; intros H; injection H as <- <-; simpl; lia.
  - destruct (num_step ns n a) as [[ns' n']|].
    + intros H; injection H as <- <-. simpl. lia.
    + destruct (num_complete ns); [|discriminate].
      intros H. pose proof (start_char_grows _ _ _ _ H) as G.
      simpl in G. destruct (is_ws a); lia.
  - destruct rest as [|b rest]; [discriminate|].
    destruct (Ascii.eqb a b); [|discriminate].
    destruct rest; intros H; injection H as <- <-; simpl; lia.
Qed.

(** A lexer inside a token gives at least one more token. *)
Lemma lex_grows (s : string) (st : lexstate) (acc ts : list token) :
  lex st acc s = Some ts -> length acc + pending st <= length ts.
Proof.
  revert st acc; induction s as [|a s IH]; intros st acc; simpl.
  - destruct st as [| | | |ns n|]; simpl; try discriminate.
    + intros H; injection H as <-. rewrite length_rev. lia.
    + destruct (num_complete ns); [|discriminate].
      intros H; injection H as <-.
      rewrite ?length_app, ?length_rev. simpl. lia.
  - destruct (lex_step st acc a) as [[st' acc']|] eqn:E; [|discriminate].
    intros H. pose proof (IH _ _ H). pose proof (lex_step_grows _ _ _ _ _ E).
    lia.
Qed.

(** A text that gives no token is blank. *)
Lemma lex_nothing_blank (s : string) (acc ts : list token) :
  lex LStart acc s = Some ts -> length ts = length acc -> blank s = true.
Proof.
  revert acc; induction s as [|a s IH]; intros acc; simpl; [reflexivity|].
  destruct (start_char acc a) as [[st' acc']|] eqn:E; [|discriminate].
  intros H L. pose proof (start_char_grows _ _ _ _ E) as G.
  pose proof (lex_grows _ _ _ _ H) as G'.
  destruct (is_ws a) eqn:W; [|lia].
  unfold start_char in E. rewrite W in E. injection E as <- <-.
  exact (IH _ H L).
Qed.

(** Once a value is complete at the top, any further token is refused. *)
Lemma parse_tokens_complete (t1 t2 : list token) (x : expect)
    (st : list frame) (v v' : json) :
  parse_tokens x st t1 = Some v ->
  parse_tokens x st (t1 ++ t2)%list = Some v' ->
  t2 = [].
Proof.
  revert x st; induction t1 as [|t t1 IH]; intros x st; simpl.
  - destruct x; try discriminate. destruct st; [|discriminate].
    intros _. destruct t2 as [|t t2]; [reflexivity|]. simpl. discriminate.
  - destruct (parse_step x st t) as [[x' st']|]; [apply IH | discriminate].
Qed.

(** What follows a text that ends with a closing brace and parses, in a
    longer text that parses too, is white space. *)
Lemma parse_no_extension (s rest : string) (v v' : json) :
  parse (s ++ "}") = Some v ->
  parse ((s ++ "}") ++ rest) = Some v' ->
  blank rest = true.
Proof.
  unfold parse, tokens.
  destruct (lex LStart [] (s ++ "}")) as [ts|] eqn:E1; [|discriminate].
  destruct (lex_closing_brace _ _ _ _ E1) as [acc' [Hrun ->]].
  rewrite lex_app, Hrun.
  destruct (lex LStart acc' rest) as [ts2|] eqn:E2; [|discriminate].
  destruct (lex_extends _ _ _ _ E2) as [more ->].
  intros P1 P2. rewrite (parse_tokens_complete _ _ _ _ _ _ P1 P2) in E2.
  apply (lex_nothing_blank _ _ _ E2).
  rewrite app_nil_r, length_rev. reflexivity.
Qed.

Lemma blank_app (s t : string) : blank (s ++ t) = true -> blank t = true.
Proof.
  induction s as [|a s IH]; simpl; [trivial|].
  intros H. apply andb_true_iff in H. apply IH. apply H.
Qed.

End JsonFacts.

(** ** The Result Normalizer *)

Module NormalizerSpec.

Import JsString RegExp Json AnalyzePolicy Scenario.
Import JsStringFacts RegExpFacts JsonFacts.

Lemma jsonMatch_widest (c : string) : jsonMatch c = widest_span c.
Proof. apply exec_braces. Qed.

(** On the fallback path the data is the synthesized object. *)
Lemma fallback_taken (raw : string) :
  takes_fallback raw = true -> analysisData raw = fallback raw.
Proof.
  unfold takes_fallback, analysisData.
  destruct (jsonMatch (cleanedResult raw)) as [span|]; [|reflexivity].
  destruct (parse span); [discriminate | reflexivity].
Qed.

(** Off the fallback path the data is what [JSON.parse] made of the span. *)
Lemma parsed_taken (raw : string) :
  takes_fallback raw = false ->
  exists span, jsonMatch (cleanedResult raw) = Some span
               /\ parse span = Some (analysisData raw).
Proof.
  unfold takes_fallback, analysisData.
  destruct (jsonMatch (cleanedResult raw)) as [span|]; [|discriminate].
  destruct (parse span) as [v|] eqn:E; [|discriminate].
  intros _. exists span. split; [reflexivity | exact E].
Qed.

(** The data is always an object: the fallback is one, and a span, which
    starts with a brace, can only parse to one. *)
Lemma analysisData_object (raw : string) :
  exists ms, analysisData raw = JObject ms.
Proof.
  destruct (takes_fallback raw) eqn:F.
  - rewrite (fallback_taken raw F). eexists; reflexivity.
  - destruct (parsed_taken raw F) as [span [Hm Hp]].
    destruct (exec_braces_starts _ _ Hm) as [m' ->].
    exact (parse_brace_object _ _ Hp).
Qed.

(** C6: when the cleaned text [c] has an opening brace at some index and a
    closing brace at a later one, the span handed to [JSON.parse] runs from
    the first opening brace ([i0]) to the last closing brace ([j0]) of [c],
    and the data is the parse of exactly that span, or the fallback when the
    parse fails. *)
Theorem C6_widest_span_is_parsed (raw c : string) (i j : nat) :
  c = cleanedResult raw ->
  String.get i c = Some "{"%char ->
  String.get j c = Some "}"%char ->
  i < j ->
  exists i0 j0,
    String.get i0 c = Some "{"%char
    /\ (forall k, k < i0 -> String.get k c <> Some "{"%char)
    /\ String.get j0 c = Some "}"%char
    /\ (forall k, j0 < k -> String.get k c <> Some "}"%char)
    /\ i0 < j0
    /\ jsonMatch c = Some (JsString.substring i0 (S j0) c)
    /\ analysisData raw
       = match parse (JsString.substring i0 (S j0) c) with
         | Some v => v
         | None => fallback raw
         end.
Proof.
  intros Hc Hi Hj Hij.
  destruct (indexOf_le _ _ _ Hi) as [i0 [Ei Hle]].
  destruct (lastIndexOf_ge _ _ _ Hj) as [j0 [Ej Hge]].
  destruct (indexOf_first _ _ _ Ei) as [Hgi Hmin].
  destruct (lastIndexOf_last _ _ _ Ej) as [Hgj Hmax].
  assert (Hlt : i0 < j0) by lia.
  assert (Hm : jsonMatch c = Some (JsString.substring i0 (S j0) c)).
  { rewrite jsonMatch_widest. unfold widest_span. rewrite Ei, Ej.
    apply Nat.ltb_lt in Hlt. rewrite Hlt. reflexivity. }
  exists i0, j0. repeat split; try assumption.
  unfold analysisData. rewrite <- Hc, Hm. reflexivity.
Qed.

(** Witness of C6: prose around two objects; the span runs from the first
    brace to the last one, [{} and {}], and is not JSON. *)
Lemma C6_widest_span_is_parsed_witness :
  two_objects_reply = cleanedResult two_objects_reply
  /\ String.get 8 two_objects_reply = Some "{"%char
  /\ String.get 9 two_objects_reply = Some "}"%char
  /\ 8 < 9
  /\ exists i0 j0,
    String.get i0 two_objects_reply = Some "{"%char
    /\ (forall k, k < i0 -> String.get k two_objects_reply <> Some "{"%char)
    /\ String.get j0 two_objects_reply = Some "}"%char
    /\ (forall k, j0 < k -> String.get k two_objects_reply <> Some "}"%char)
    /\ i0 < j0
    /\ jsonMatch two_objects_reply
       = Some (JsString.substring i0 (S j0) two_objects_reply)
    /\ analysisData two_objects_reply
       = match parse (JsString.substring i0 (S j0) two_objects_reply) with
         | Some v => v
         | None => fallback two_objects_reply
         end.
Proof.
  split; [reflexivity|]. split; [reflexivity|]. split; [reflexivity|].
  split; [lia|].
  apply (C6_widest_span_is_parsed two_objects_reply two_objects_reply 8 9);
    [reflexivity | reflexivity | reflexivity | lia].
Defined.

(** C7: for the fenced reply, the cleaned text is the bare object, it parses,
    and [executive_summary.confidence_score] of the data is 90. *)
Theorem C7_fenced_reply :
  cleanedResult fenced_reply
  = "{" ++ q "executive_summary" ++ ":{" ++ q "confidence_score" ++ ":90}}"
  /\ jsonMatch (cleanedResult fenced_reply) = Some (cleanedResult fenced_reply)
  /\ parse (cleanedResult fenced_reply) = Some (analysisData fenced_reply)
  /\ takes_fallback fenced_reply = false
  /\ get2 "executive_summary" "confidence_score" (analysisData fenced_reply)
     = Some (JInt 90).
Proof. vm_compute. repeat split. Qed.

(** C10: on the fallback path the data has the fixed default values. *)
Theorem C10_fallback_defaults (raw : string) :
  takes_fallback raw = true ->
  let d := analysisData raw in
  get2 "executive_summary" "confidence_score" d = Some (JInt 85)
  /\ get2 "executive_summary" "savings_potential" d = Some (JText "15-25%")
  /\ get2 "savings_opportunities" "estimated_savings_range" d
     = Some (JText "15-25%")
  /\ get2 "executive_summary" "current_premium" d
     = Some (JText "Analysis completed")
  /\ get2 "savings_opportunities" "immediate_actions" d
     = Some (JArray [ JText "Review classification codes for accuracy";
                      JText "Verify payroll calculations";
                      JText "Check experience modification factor" ]).
Proof.
  intros H d. subst d. rewrite (fallback_taken raw H).
  repeat split; reflexivity.
Qed.

Lemma C10_fallback_defaults_witness :
  takes_fallback prose_reply = true
  /\ get2 "executive_summary" "confidence_score" (analysisData prose_reply)
     = Some (JInt 85)
  /\ get2 "executive_summary" "savings_potential" (analysisData prose_reply)
     = Some (JText "15-25%").
Proof.
  split; [reflexivity|].
  split; apply (C10_fallback_defaults prose_reply); reflexivity.
Defined.

(** C3, as stated, fails: this reply is not JSON, yet the data is the empty
    object found inside it, without a confidence score, actions or the
    original text. *)
Lemma C3_counterexample :
  parse embedded_reply = None
  /\ analysisData embedded_reply = JObject []
  /\ get2 "executive_summary" "confidence_score" (analysisData embedded_reply)
     = None
  /\ get2 "savings_opportunities" "immediate_actions"
       (analysisData embedded_reply) = None
  /\ get "full_analysis_text" (analysisData embedded_reply) = None.
Proof. vm_compute. repeat split. Qed.

(** The empty reply, plain prose and a truncated object all end in the
    fallback. *)
Lemma fallback_examples :
  takes_fallback "" = true
  /\ takes_fallback prose_reply = true
  /\ takes_fallback truncated_reply = true
  /\ takes_fallback ("{" ++ q "a" ++ ": {" ++ q "b" ++ ": 1}") = true.
Proof. vm_compute. repeat split. Qed.

End NormalizerSpec.

(** ** The Upload Extractor and the Model Invoker *)

Module InvokerSpec.

Import JsString RegExp Json AnalyzePolicy Scenario JsStringFacts.

(** The extension is always defined. *)
Lemma fileExtension_defined (fileName : string) :
  exists ext, fileExtension fileName = Some ext.
Proof.
  unfold fileExtension.
  assert (H : forall l, l <> [] -> exists x, pop l = Some x).
  { induction l as [|x l IH]; [contradiction|]. intros _.
    destruct l as [|y l]; [exists x; reflexivity|].
    destruct IH as [z Hz]; [discriminate|]. exists z. exact Hz. }
  destruct (H _ (split_not_nil "." fileName)) as [seg ->].
  eexists; reflexivity.
Qed.

(** A name without a dot is, in lower case, its own extension. *)
Lemma fileExtension_without_dot (fileName : string) :
  indexOf "." fileName = None ->
  fileExtension fileName = Some (toLowerCase fileName).
Proof.
  intros H. unfold fileExtension.
  rewrite (split_without_sep _ _ H). reflexivity.
Qed.

(** C4 at two names without a dot: the extension is not empty but the whole
    name in lower case, and the name [PNG] is sent as an image. *)
Theorem C4_dotless_names :
  indexOf "." "README" = None
  /\ fileExtension "README" = Some "readme"
  /\ indexOf "." "PNG" = None
  /\ fileExtension "PNG" = Some "png"
  /\ userContent "png" "PNG" sample_bytes
     = Parts [ TextPart (userPrompt "PNG");
               ImageUrlPart "data:image/png;base64,JVBERi0=" "high" ].
Proof. repeat split; reflexivity. Qed.

(** C5: for the extensions [jpg], [jpeg] and [png] the user content has two
    parts, the instruction text and an inline image whose data URI starts
    with the MIME type of the extension. *)
Theorem C5_image_content (ext fileName : string) (fileContent : list byte) :
  ext = "jpg" \/ ext = "jpeg" \/ ext = "png" ->
  exists mime,
    (ext = "png" -> mime = "image/png")
    /\ (ext = "jpg" \/ ext = "jpeg" -> mime = "image/jpeg")
    /\ userContent ext fileName fileContent
       = Parts [ TextPart (userPrompt fileName);
                 ImageUrlPart
                   ("data:" ++ mime ++ ";base64," ++ Base64.encode fileContent)
                   "high" ].
Proof.
  intros [-> | [-> | ->]].
  - exists "image/jpeg". repeat split; try reflexivity; discriminate.
  - exists "image/jpeg". repeat split; try reflexivity; discriminate.
  - exists "image/png". repeat split; try reflexivity.
    intros [H | H]; discriminate.
Qed.

Lemma C5_image_content_witness :
  ("png" = "jpg" \/ "png" = "jpeg" \/ "png" = "png")
  /\ exists mime,
    ("png" = "png" -> mime = "image/png")
    /\ ("png" = "jpg" \/ "png" = "jpeg" -> mime = "image/jpeg")
    /\ userContent "png" "scan.png" sample_bytes
       = Parts [ TextPart (userPrompt "scan.png");
                 ImageUrlPart
                   ("data:" ++ mime ++ ";base64," ++ Base64.encode sample_bytes)
                   "high" ].
Proof.
  split; [right; right; reflexivity|].
  apply (C5_image_content "png" "scan.png" sample_bytes).
  right; right; reflexivity.
Defined.

(** C1, as stated, fails: for [policy.txt] the content is the instruction
    text alone; neither the note of the PDF branch nor any "could not be
    rendered" remark is in it. *)
Lemma C1_counterexample :
  fileExtension "policy.txt" = Some "txt"
  /\ is_image "txt" = false
  /\ userContent "txt" "policy.txt" sample_bytes
     = Text (userPrompt "policy.txt")
  /\ text_only_with_note (userContent "txt" "policy.txt" sample_bytes) = false
  /\ includes "could not be rendered" (userPrompt "policy.txt") = false
  /\ includes "Note:" (userPrompt "policy.txt") = false.
Proof. vm_compute. repeat split. Qed.

(** C1, amended: for an extension that is not an image one, [pdf] gives a
    single text part, the instruction followed by the PDF note; every other
    extension gives the instruction text alone. *)
Theorem C1_non_image_content (ext fileName : string) (fileContent : list byte) :
  is_image ext = false ->
  (ext = "pdf" ->
     userContent ext fileName fileContent
     = Parts [ TextPart (userPrompt fileName ++ lf ++ lf ++ pdfNote) ]
     /\ text_only_with_note (userContent ext fileName fileContent) = true)
  /\ (ext <> "pdf" ->
        userContent ext fileName fileContent = Text (userPrompt fileName)).
Proof.
  intros Himg. split.
  - intros ->. split; [reflexivity|].
    change (includes pdfNote (userPrompt fileName ++ lf ++ lf ++ pdfNote) = true).
    do 2 apply includes_skip. apply includes_app_r.
  - intros Hne. unfold userContent. rewrite Himg.
    apply String.eqb_neq in Hne. rewrite Hne. reflexivity.
Qed.

Lemma C1_non_image_content_witness :
  is_image "pdf" = false
  /\ userContent "pdf" "policy.pdf" sample_bytes
     = Parts [ TextPart (userPrompt "policy.pdf" ++ lf ++ lf ++ pdfNote) ]
  /\ is_image "docx" = false
  /\ userContent "docx" "policy.docx" sample_bytes
     = Text (userPrompt "policy.docx").
Proof.
  split; [reflexivity|]. split.
  - apply (C1_non_image_content "pdf" "policy.pdf" sample_bytes);
      reflexivity.
  - split; [reflexivity|].
    apply (C1_non_image_content "docx" "policy.docx" sample_bytes);
      [reflexivity | discriminate].
Defined.

End InvokerSpec.

(** ** The Request Validator and whole runs *)

Module HandlerSpec.

Import JsString RegExp Json AnalyzePolicy Scenario NormalizerSpec.

Lemma key_mismatch_true (client : option string) (server : string) :
  client <> Some server -> key_mismatch client server = true.
Proof.
  intros H. destruct client as [k|]; simpl; [|reflexivity].
  destruct (String.eqb_spec k server) as [->|]; [contradiction | reflexivity].
Qed.

Lemma key_mismatch_false (server : string) :
  key_mismatch (Some server) server = false.
Proof. simpl. rewrite String.eqb_refl. reflexivity. Qed.

(** Past the method and the key checks, a run is the [try] block. *)
Lemma handler_authorized (w : world) (req : request) :
  method req = "POST" ->
  x_api_key req = Some (serverApiKey w) ->
  handler w req
  = match try_block w [] with
    | (Value (st, b), t) => (mkResponse st cors_headers (Some b), t)
    | (Returned st b, t) => (mkResponse st cors_headers (Some b), t)
    | (Thrown error, t) =>
        (mkResponse 500 cors_headers (Some (error_body w error)), t)
    end.
Proof.
  intros Hm Hk. unfold handler. rewrite Hm, Hk, key_mismatch_false.
  reflexivity.
Qed.

(** C9: a POST whose key is not the configured secret is answered 401 with
    the "Invalid API key" envelope, and nothing has been done before: no
    form parse, no file read, no model call. *)
Theorem C9_invalid_key (w : world) (req : request) :
  method req = "POST" ->
  x_api_key req <> Some (serverApiKey w) ->
  handler w req
  = (mkResponse 401 cors_headers
       (Some (obj [ ("success", JBool false);
                    ("error", JText "Invalid API key") ])),
     []).
Proof.
  intros Hm Hk. unfold handler. rewrite Hm.
  rewrite (key_mismatch_true _ _ Hk). reflexivity.
Qed.

Lemma C9_invalid_key_witness :
  method bad_post = "POST"
  /\ x_api_key bad_post <> Some (serverApiKey world_empty_object)
  /\ handler world_empty_object bad_post
     = (mkResponse 401 cors_headers
          (Some (obj [ ("success", JBool false);
                       ("error", JText "Invalid API key") ])),
        []).
Proof.
  split; [reflexivity|].
  split; [discriminate|].
  apply (C9_invalid_key world_empty_object bad_post);
    [reflexivity | discriminate].
Defined.

(** C8: a POST with the right key whose form holds no [policy_file] is
    answered 400 with [success: false]; the form parse is the only action of
    the run, so the model is never called. *)
Theorem C8_missing_file (w : world) (req : request) :
  method req = "POST" ->
  x_api_key req = Some (serverApiKey w) ->
  form_parse w = inr None ->
  exists b,
    handler w req = (mkResponse 400 cors_headers (Some b), [FormParse])
    /\ b = obj [ ("success", JBool false); ("error", JText "No file uploaded") ]
    /\ get "success" b = Some (JBool false)
    /\ existsb is_fetch (snd (handler w req)) = false.
Proof.
  intros Hm Hk Hf.
  assert (E : handler w req
              = (mkResponse 400 cors_headers
                   (Some (failure_body "No file uploaded")), [FormParse])).
  { rewrite (handler_authorized w req Hm Hk).
    unfold try_block, bind, emit, lift, ret, respond. simpl.
    rewrite Hf. reflexivity. }
  eexists. split; [exact E|]. rewrite E.
  repeat split; reflexivity.
Qed.

Lemma C8_missing_file_witness :
  method good_post = "POST"
  /\ x_api_key good_post = Some (serverApiKey world_no_file)
  /\ form_parse world_no_file = inr None
  /\ exists b,
    handler world_no_file good_post
    = (mkResponse 400 cors_headers (Some b), [FormParse])
    /\ b = obj [ ("success", JBool false); ("error", JText "No file uploaded") ]
    /\ get "success" b = Some (JBool false)
    /\ existsb is_fetch (snd (handler world_no_file good_post)) = false.
Proof.
  repeat (split; [reflexivity|]).
  apply (C8_missing_file world_no_file good_post); reflexivity.
Defined.

(** What a [try] block that runs to its end has done: it parsed the form,
    read the uploaded file and called the model once for it; the model
    answered 2xx with the text [raw], and the success body around the
    normalized [raw] could be serialized. *)
Lemma try_block_value (w : world) (st : N) (b : json) (t : list event) :
  try_block w [] = (Value (st, b), t) ->
  exists file fileContent fileName ext key resp raw,
    form_parse w = inr (Some file)
    /\ readFileSync w (filepath file) = inr fileContent
    /\ originalFilename file = Some fileName
    /\ fileExtension fileName = Some ext
    /\ env_OPENAI_API_KEY w = Some key /\ key <> ""
    /\ fetch w (chat_request key (userContent ext fileName fileContent))
       = inr resp
    /\ ok resp = true
    /\ http_content resp = inr raw
    /\ stringify_error w b = None
    /\ st = 200%N
    /\ b = success_body w (analysisData raw) fileName ext
    /\ t = [ FormParse; ReadFile (filepath file);
             Fetch (chat_request key (userContent ext fileName fileContent)) ].
Proof.
  unfold try_block, call_model, send_json, bind, emit, lift, ret, respond,
    throw.
  simpl.
  destruct (form_parse w) as [e|[file|]]; try discriminate.
  destruct (readFileSync w (filepath file)) as [e|bytes] eqn:Er;
    try discriminate.
  destruct (originalFilename file) as [fileName|] eqn:En; try discriminate.
  destruct (fileExtension fileName) as [ext|] eqn:Ee; try discriminate.
  destruct (env_OPENAI_API_KEY w) as [[|a key]|]; try discriminate.
  destruct (fetch w _) as [e|resp] eqn:Ef; try discriminate.
  destruct (ok resp) eqn:Eo.
  - destruct (http_content resp) as [e|raw] eqn:Ec; try discriminate.
    destruct (stringify_error w _) as [e|] eqn:Es; try discriminate.
    intros H. injection H as <- <- <-.
    exists file, bytes, fileName, ext, (String a key), resp, raw.
    repeat split; try assumption; try reflexivity. discriminate.
  - destruct (http_text resp); discriminate.
Qed.

(** The only early return of the [try] block is the 400. *)
Lemma try_block_returned (w : world) (st : N) (b : json) (t : list event) :
  try_block w [] = (Returned st b, t) ->
  st = 400%N /\ b = failure_body "No file uploaded".
Proof.
  unfold try_block, call_model, send_json, bind, emit, lift, ret, respond,
    throw.
  simpl.
  destruct (form_parse w) as [e|[file|]]; try discriminate.
  - destruct (readFileSync w (filepath file)) as [e|bytes]; try discriminate.
    destruct (originalFilename file) as [fileName|]; try discriminate.
    destruct (fileExtension fileName) as [ext|]; try discriminate.
    destruct (env_OPENAI_API_KEY w) as [[|a key]|]; try discriminate.
    destruct (fetch w _) as [e|resp]; try discriminate.
    destruct (ok resp).
    + destruct (http_content resp); try discriminate.
      destruct (stringify_error w _); discriminate.
    + destruct (http_text resp); discriminate.
  - intros H. injection H as <- <- _. split; reflexivity.
Qed.

Lemma error_body_fails (w : world) (e : js_error) :
  get "success" (error_body w e) = Some (JBool false).
Proof. unfold error_body. destruct (is_development w); reflexivity. Qed.

(** C2, as stated, fails: the model answers with the empty object, the run
    succeeds, and the data returned has no [executive_summary]. *)
Lemma C2_counterexample :
  status (fst (handler world_empty_object good_post)) = 200%N
  /\ option_map (get "success")
       (json_body (fst (handler world_empty_object good_post)))
     = Some (Some (JBool true))
  /\ option_map (get "data")
       (json_body (fst (handler world_empty_object good_post)))
     = Some (Some (JObject []))
  /\ takes_fallback "{}" = false
  /\ get "executive_summary" (JObject []) = None
  /\ get2 "executive_summary" "savings_potential" (JObject []) = None
  /\ get2 "executive_summary" "confidence_score" (JObject []) = None.
Proof. vm_compute. repeat split. Qed.

(** C2, amended: the data of every successful envelope is the normalized
    reply of the model, a JSON object: the run called the model ([rq]), the
    model answered 2xx with the text [raw], and the data is [raw]
    normalized.  When [raw] took the fallback path the data has
    [executive_summary.savings_potential] and
    [executive_summary.confidence_score], with the default values; when
    [raw] parsed, the data is the parsed value itself, with whatever fields
    the model wrote. *)
Theorem C2_result_shape (w : world) (req : request) (r : response)
    (t : list event) (b : json) :
  handler w req = (r, t) ->
  json_body r = Some b ->
  get "success" b = Some (JBool true) ->
  exists p rq resp raw d,
    t = [FormParse; ReadFile p; Fetch rq]
    /\ fetch w rq = inr resp
    /\ ok resp = true
    /\ http_content resp = inr raw
    /\ get "data" b = Some d
    /\ d = analysisData raw
    /\ (exists ms, d = JObject ms)
    /\ ((takes_fallback raw = true
         /\ get2 "executive_summary" "savings_potential" d
            = Some (JText "15-25%")
         /\ get2 "executive_summary" "confidence_score" d = Some (JInt 85))
        \/ (takes_fallback raw = false
            /\ exists span, jsonMatch (cleanedResult raw) = Some span
                            /\ parse span = Some d)).
Proof.
  unfold handler.
  destruct (String.eqb (method req) "OPTIONS").
  { intros H; injection H as <- _. discriminate. }
  destruct (negb (String.eqb (method req) "POST")).
  { intros H; injection H as <- _. simpl.
    intros H; injection H as <-. discriminate. }
  destruct (key_mismatch (x_api_key req) (serverApiKey w)).
  { intros H; injection H as <- _. simpl.
    intros H; injection H as <-. discriminate. }
  destruct (try_block w []) as [[[st b']|e|st b'] t'] eqn:E.
  - intros H; injection H as <- <-. simpl. intros H; injection H as <-.
    intros _.
    destruct (try_block_value _ _ _ _ E)
      as (file & bytes & fileName & ext & key & resp & raw
          & _ & _ & _ & _ & _ & _ & Hf & Ho & Hc & _ & _ & -> & ->).
    exists (filepath file),
           (chat_request key (userContent ext fileName bytes)),
           resp, raw, (analysisData raw).
    split; [reflexivity|]. split; [exact Hf|]. split; [exact Ho|].
    split; [exact Hc|].
    split; [reflexivity|]. split; [reflexivity|].
    split; [apply analysisData_object|].
    destruct (takes_fallback raw) eqn:F.
    + left. split; [reflexivity|].
      rewrite (fallback_taken raw F). split; reflexivity.
    + right. split; [reflexivity|]. apply parsed_taken. exact F.
  - intros H; injection H as <- _. simpl. intros H; injection H as <-.
    rewrite error_body_fails. discriminate.
  - intros H; injection H as <- _. simpl. intros H; injection H as <-.
    destruct (try_block_returned _ _ _ _ E) as [_ ->]. discriminate.
Qed.

Lemma C2_result_shape_witness :
  handler world_prose good_post
  = (fst (handler world_prose good_post), snd (handler world_prose good_post))
  /\ json_body (fst (handler world_prose good_post))
     = Some (success_body world_prose (analysisData prose_reply)
               "policy.pdf" "pdf")
  /\ get "success"
       (success_body world_prose (analysisData prose_reply) "policy.pdf" "pdf")
     = Some (JBool true)
  /\ exists p rq resp raw d,
    snd (handler world_prose good_post) = [FormParse; ReadFile p; Fetch rq]
    /\ fetch world_prose rq = inr resp
    /\ ok resp = true
    /\ http_content resp = inr raw
    /\ get "data"
         (success_body world_prose (analysisData prose_reply)
            "policy.pdf" "pdf")
       = Some d
    /\ d = analysisData raw
    /\ (exists ms, d = JObject ms)
    /\ ((takes_fallback raw = true
         /\ get2 "executive_summary" "savings_potential" d
            = Some (JText "15-25%")
         /\ get2 "executive_summary" "confidence_score" d = Some (JInt 85))
        \/ (takes_fallback raw = false
            /\ exists span, jsonMatch (cleanedResult raw) = Some span
                            /\ parse span = Some d)).
Proof.
  repeat (split; [reflexivity|]).
  apply (C2_result_shape world_prose good_post
           (fst (handler world_prose good_post))
           (snd (handler world_prose good_post))
           (success_body world_prose (analysisData prose_reply)
              "policy.pdf" "pdf"));
    reflexivity.
Defined.

(** A run that gets past validation with a readable, named file and a
    configured model key parses the form, reads the file and calls the model
    once, with the user content chosen by the extension. *)
Lemma run_reaches_model (w : world) (req : request) (file : policy_file)
    (fileContent : list byte) (fileName ext key : string) :
  method req = "POST" ->
  x_api_key req = Some (serverApiKey w) ->
  form_parse w = inr (Some file) ->
  readFileSync w (filepath file) = inr fileContent ->
  originalFilename file = Some fileName ->
  fileExtension fileName = Some ext ->
  env_OPENAI_API_KEY w = Some key ->
  key <> "" ->
  snd (handler w req)
  = [ FormParse; ReadFile (filepath file);
      Fetch (chat_request key (userContent ext fileName fileContent)) ].
Proof.
  intros Hm Hk Hf Hr Hn He Ho Hne.
  rewrite (handler_authorized w req Hm Hk).
  unfold try_block, call_model, bind, emit, lift, ret, respond, throw.
  simpl. rewrite Hf, Hr, Hn, He, Ho.
  destruct key as [|a key]; [contradiction|].
  destruct (fetch w _) as [e|resp]; [reflexivity|].
  destruct (ok resp).
  - destruct (http_content resp); [reflexivity|].
    unfold send_json. destruct (stringify_error w _); reflexivity.
  - destruct (http_text resp); reflexivity.
Qed.

End HandlerSpec.

(** ** Whole runs: statuses, envelopes and actions *)

Module RunSpec.

Import JsString RegExp Json AnalyzePolicy Scenario Variations HandlerSpec.

Ltac unfold_run :=
  unfold try_block, call_model, send_json, bind, emit, lift, ret, respond,
    throw;
  simpl.

(** The three ways a [try] block ends. *)
Lemma try_block_cases (w : world) :
  (form_parse w = inr None
   /\ try_block w [] = (Returned 400 (failure_body "No file uploaded"),
                        [FormParse]))
  \/ (exists e t,
        try_block w [] = (Thrown e, t)
        /\ form_parse w <> inr None
        /\ (t = [FormParse]
            \/ (exists p, t = [FormParse; ReadFile p])
            \/ (exists p rq, t = [FormParse; ReadFile p; Fetch rq])))
  \/ (exists fileName ext raw p rq,
        try_block w []
        = (Value (200%N, success_body w (analysisData raw) fileName ext),
           [FormParse; ReadFile p; Fetch rq])
        /\ form_parse w <> inr None).
Proof.
  unfold_run.
  destruct (form_parse w) as [e|[file|]].
  - right; left. exists e, [FormParse]. repeat split; [discriminate | now left].
  - assert (Hne : @inr js_error _ (Some file) <> inr None) by discriminate.
    destruct (readFileSync w (filepath file)) as [e|bytes].
    { right; left. exists e, [FormParse; ReadFile (filepath file)].
      repeat split; [exact Hne | right; left; eexists; reflexivity]. }
    destruct (originalFilename file) as [fileName|].
    2:{ right; left. exists (type_error w), [FormParse; ReadFile (filepath file)].
        repeat split; [exact Hne | right; left; eexists; reflexivity]. }
    destruct (fileExtension fileName) as [ext|].
    2:{ right; left. exists (type_error w), [FormParse; ReadFile (filepath file)].
        repeat split; [exact Hne | right; left; eexists; reflexivity]. }
    destruct (env_OPENAI_API_KEY w) as [[|a key]|].
    1,3: right; left; eexists; exists [FormParse; ReadFile (filepath file)];
         repeat split; [exact Hne | right; left; eexists; reflexivity].
    set (rq := chat_request (String a key) (userContent ext fileName bytes)).
    assert (Hshape : forall e : js_error,
      exists e' t', (@Thrown (N * json) e,
                     [FormParse; ReadFile (filepath file); Fetch rq])
                    = (Thrown e', t')
        /\ @inr js_error _ (Some file) <> inr None
        /\ (t' = [FormParse]
            \/ (exists p, t' = [FormParse; ReadFile p])
            \/ (exists p rq', t' = [FormParse; ReadFile p; Fetch rq']))).
    { intros e. exists e, [FormParse; ReadFile (filepath file); Fetch rq].
      repeat split; [exact Hne|]. right; right. eexists; eexists; reflexivity. }
    destruct (fetch w rq) as [e|resp]; [right; left; apply Hshape|].
    destruct (ok resp).
    + destruct (http_content resp) as [e|raw]; [right; left; apply Hshape|].
      destruct (stringify_error w _) as [e|]; [right; left; apply Hshape|].
      right; right. exists fileName, ext, raw, (filepath file), rq.
      split; [reflexivity | exact Hne].
    + destruct (http_text resp) as [e|txt]; right; left; apply Hshape.
  - left. split; reflexivity.
Qed.

(** The four ways a run ends, by method and key. *)
Lemma handler_cases (w : world) (req : request) :
  (method req = "OPTIONS"
   /\ handler w req = (mkResponse 200 cors_headers None, []))
  \/ (method req <> "OPTIONS" /\ method req <> "POST"
      /\ handler w req
         = (mkResponse 405 cors_headers
              (Some (failure_body "Method not allowed")), []))
  \/ (method req = "POST"
      /\ key_mismatch (x_api_key req) (serverApiKey w) = true
      /\ handler w req
         = (mkResponse 401 cors_headers
              (Some (failure_body "Invalid API key")), []))
  \/ (method req = "POST"
      /\ key_mismatch (x_api_key req) (serverApiKey w) = false
      /\ handler w req
         = match try_block w [] with
           | (Value (st, b), t) => (mkResponse st cors_headers (Some b), t)
           | (Returned st b, t) => (mkResponse st cors_headers (Some b), t)
           | (Thrown error, t) =>
               (mkResponse 500 cors_headers (Some (error_body w error)), t)
           end).
Proof.
  unfold handler.
  destruct (String.eqb_spec (method req) "OPTIONS") as [Ho|Ho].
  { left. split; [exact Ho | reflexivity]. }
  destruct (String.eqb_spec (method req) "POST") as [Hp|Hp]; simpl.
  2:{ right; left. repeat split; assumption. }
  destruct (key_mismatch (x_api_key req) (serverApiKey w)) eqn:K.
  - right; right; left. repeat split; assumption.
  - right; right; right. repeat split; assumption.
Qed.

Lemma or_else_nonempty (a : option string) (d : string) :
  d <> "" -> or_else a d <> "".
Proof. intros Hd. destruct a as [[|c s]|]; simpl; [exact Hd | discriminate | exact Hd]. Qed.

Lemma error_body_error (w : world) (e : js_error) :
  get "error" (error_body w e)
  = Some (JText (or_else (Some (message e)) "Failed to analyze policy")).
Proof. unfold error_body. destruct (is_development w); reflexivity. Qed.

(** X1: Every response is 200, 400, 401, 405 or 500.  Only the preflight has no
    body.  A body with status 200 says [success: true]; every other body
    says [success: false] and carries a non-empty [error] text. *)
Theorem envelope_by_status (w : world) (req : request) :
  (status (fst (handler w req)) = 200
   \/ status (fst (handler w req)) = 400
   \/ status (fst (handler w req)) = 401
   \/ status (fst (handler w req)) = 405
   \/ status (fst (handler w req)) = 500)%N
  /\ (json_body (fst (handler w req)) = None <-> method req = "OPTIONS")
  /\ forall b, json_body (fst (handler w req)) = Some b ->
       (status (fst (handler w req)) = 200%N
        /\ get "success" b = Some (JBool true))
       \/ (status (fst (handler w req)) <> 200%N
           /\ get "success" b = Some (JBool false)
           /\ exists msg, get "error" b = Some (JText msg) /\ msg <> "").
Proof.
  destruct (handler_cases w req)
    as [[Hm ->] | [(Ho & Hp & ->) | [(Hp & K & ->) | (Hp & K & ->)]]]; simpl.
  - split; [now left|]. split; [tauto|]. discriminate.
  - split; [tauto|]. split; [split; [discriminate | contradiction]|].
    intros b H; injection H as <-. right.
    repeat split; [discriminate|]. eexists; split; [reflexivity | discriminate].
  - split; [tauto|].
    split; [split; [discriminate | rewrite Hp; discriminate]|].
    intros b H; injection H as <-. right.
    repeat split; [discriminate|]. eexists; split; [reflexivity | discriminate].
  - destruct (try_block_cases w)
      as [[_ ->] | [(e & t & -> & _) | (n & x & raw & p & rq & -> & _)]]; simpl.
    + split; [tauto|].
      split; [split; [discriminate | rewrite Hp; discriminate]|].
      intros b H; injection H as <-. right.
      repeat split; [discriminate|].
      eexists; split; [reflexivity | discriminate].
    + split; [tauto|].
      split; [split; [discriminate | rewrite Hp; discriminate]|].
      intros b H; injection H as <-. right.
      split; [discriminate|]. split; [apply error_body_fails|].
      eexists; split; [apply error_body_error|].
      apply or_else_nonempty. discriminate.
    + split; [tauto|].
      split; [split; [discriminate | rewrite Hp; discriminate]|].
      intros b H; injection H as <-. left. split; reflexivity.
Qed.

(** X2: The actions of a run are an initial part of: parse the form, read the
    file, call the model.  So the model is called at most once, and the
    file is read at most once, after the form was parsed. *)
Theorem actions_in_order (w : world) (req : request) :
  (snd (handler w req) = []
   \/ snd (handler w req) = [FormParse]
   \/ (exists p, snd (handler w req) = [FormParse; ReadFile p])
   \/ (exists p rq, snd (handler w req) = [FormParse; ReadFile p; Fetch rq]))
  /\ length (filter is_fetch (snd (handler w req))) <= 1.
Proof.
  destruct (handler_cases w req)
    as [[Hm ->] | [(Ho & Hp & ->) | [(Hp & K & ->) | (Hp & K & ->)]]]; simpl;
    try (split; [now left | lia]).
  destruct (try_block_cases w)
    as [[_ ->] | [(e & t & -> & _ & Ht) | (n & x & raw & p & rq & -> & _)]];
    simpl.
  - split; [right; now left | lia].
  - destruct Ht as [-> | [[p ->] | [p [rq ->]]]]; simpl.
    + split; [right; now left | lia].
    + split; [right; right; left; eexists; reflexivity | lia].
    + split; [right; right; right; eexists; eexists; reflexivity | lia].
  - split; [right; right; right; eexists; eexists; reflexivity | lia].
Qed.

Lemma key_mismatch_iff (client : option string) (server : string) :
  key_mismatch client server = true <-> client <> Some server.
Proof.
  split.
  - intros K E. rewrite E, key_mismatch_false in K. discriminate.
  - apply key_mismatch_true.
Qed.

(** X3: Nothing is parsed, read or called exactly when the request is a
    preflight, has another method than POST, or has a wrong key. *)
Theorem no_action_iff_rejected (w : world) (req : request) :
  snd (handler w req) = []
  <-> (method req <> "POST" \/ x_api_key req <> Some (serverApiKey w)).
Proof.
  rewrite <- key_mismatch_iff.
  destruct (handler_cases w req)
    as [[Hm ->] | [(Ho & Hp & ->) | [(Hp & K & ->) | (Hp & K & ->)]]]; simpl.
  - split; [|reflexivity]. intros _. left. rewrite Hm. discriminate.
  - split; [|reflexivity]. intros _. left. exact Hp.
  - split; [|reflexivity]. intros _. right. exact K.
  - split.
    + destruct (try_block_cases w)
        as [[_ ->] | [(e & t & -> & _ & Ht) | (n & x & raw & p & rq & -> & _)]];
        simpl; try discriminate.
      destruct Ht as [-> | [[p ->] | [p [rq ->]]]]; discriminate.
    + intros [H | H]; [contradiction | rewrite K in H; discriminate].
Qed.

(** X4: The status is 405 exactly for the methods other than OPTIONS and POST,
    whatever the key. *)
Theorem status_405_iff (w : world) (req : request) :
  status (fst (handler w req)) = 405%N
  <-> (method req <> "OPTIONS" /\ method req <> "POST").
Proof.
  destruct (handler_cases w req)
    as [[Hm ->] | [(Ho & Hp & ->) | [(Hp & K & ->) | (Hp & K & ->)]]]; simpl.
  - split; [discriminate | intros [H _]; contradiction].
  - split; [intros _; split; assumption | reflexivity].
  - split; [discriminate | intros [_ H]; contradiction].
  - destruct (try_block_cases w)
      as [[_ ->] | [(e & t & -> & _) | (n & x & raw & p & rq & -> & _)]];
      simpl; (split; [discriminate | intros [_ H]; contradiction]).
Qed.

(** X5: The status is 401 exactly for a POST whose key header is absent or
    differs from the secret. *)
Theorem status_401_iff (w : world) (req : request) :
  status (fst (handler w req)) = 401%N
  <-> (method req = "POST" /\ x_api_key req <> Some (serverApiKey w)).
Proof.
  pose proof (key_mismatch_iff (x_api_key req) (serverApiKey w)) as Hk.
  destruct (handler_cases w req)
    as [[Hm ->] | [(Ho & Hp & ->) | [(Hp & K & ->) | (Hp & K & ->)]]]; simpl.
  - split; [discriminate | intros [H _]; rewrite Hm in H; discriminate].
  - split; [discriminate | intros [H _]; contradiction].
  - split; [intros _; split; [exact Hp | apply Hk; exact K] | reflexivity].
  - assert (Hno : ~ (method req = "POST"
                     /\ x_api_key req <> Some (serverApiKey w))).
    { intros [_ H]. apply Hk in H. rewrite K in H. discriminate. }
    destruct (try_block_cases w)
      as [[_ ->] | [(e & t & -> & _) | (n & x & raw & p & rq & -> & _)]];
      simpl; (split; [discriminate | intros H; contradiction]).
Qed.

(** X6: The status is 400 exactly for a POST with the right key whose form
    parsed and holds no [policy_file]. *)
Theorem status_400_iff (w : world) (req : request) :
  status (fst (handler w req)) = 400%N
  <-> (method req = "POST" /\ x_api_key req = Some (serverApiKey w)
       /\ form_parse w = inr None).
Proof.
  destruct (handler_cases w req)
    as [[Hm ->] | [(Ho & Hp & ->) | [(Hp & K & ->) | (Hp & K & ->)]]]; simpl.
  - split; [discriminate | intros [H _]; rewrite Hm in H; discriminate].
  - split; [discriminate | intros [H _]; contradiction].
  - split; [discriminate|].
    intros (_ & H & _). rewrite H, key_mismatch_false in K. discriminate.
  - assert (Hkey : x_api_key req = Some (serverApiKey w)).
    { destruct (x_api_key req) as [k|]; simpl in K; [|discriminate].
      destruct (String.eqb_spec k (serverApiKey w)) as [E|E];
        [rewrite E; reflexivity | discriminate]. }
    destruct (try_block_cases w)
      as [[Hf ->] | [(e & t & -> & Hf & _) | (n & x & raw & p & rq & -> & Hf)]];
      simpl.
    + split; [intros _; repeat split; assumption | reflexivity].
    + split; [discriminate | intros (_ & _ & H); contradiction].
    + split; [discriminate | intros (_ & _ & H); contradiction].
Qed.

(** X7: Outside development no response carries [details]: the stack of an
    error is never sent. *)
Theorem no_details_outside_development (w : world) (req : request) (b : json) :
  is_development w = false ->
  json_body (fst (handler w req)) = Some b ->
  get "details" b = None.
Proof.
  intros Hdev.
  destruct (handler_cases w req)
    as [[Hm ->] | [(Ho & Hp & ->) | [(Hp & K & ->) | (Hp & K & ->)]]]; simpl;
    try discriminate;
    try (intros H; injection H as <-; reflexivity).
  destruct (try_block_cases w)
    as [[_ ->] | [(e & t & -> & _) | (n & x & raw & p & rq & -> & _)]]; simpl;
    intros H; injection H as <-; try reflexivity.
  unfold error_body. rewrite Hdev. reflexivity.
Qed.

Lemma no_details_outside_development_witness :
  is_development world_read_error = false
  /\ json_body (fst (handler world_read_error good_post))
     = Some (error_body world_read_error
               (mkError "ENOENT: no such file or directory" ""))
  /\ get "details"
       (error_body world_read_error
          (mkError "ENOENT: no such file or directory" "")) = None.
Proof.
  split; [reflexivity|]. split; [reflexivity|].
  apply (no_details_outside_development world_read_error good_post);
    reflexivity.
Defined.

(** X8: In development the body of a 500 carries, as [details], the stack
    of the error that the [try] block threw, the same error whose message
    (or the default text, when it is empty) is the [error] of the body.
    When the form parser or the file read failed, it is their error. *)
Theorem details_in_development (w : world) (req : request) (b : json) :
  is_development w = true ->
  status (fst (handler w req)) = 500%N ->
  json_body (fst (handler w req)) = Some b ->
  exists e t,
    try_block w [] = (Thrown e, t)
    /\ get "details" b = Some (JText (stack e))
    /\ get "error" b
       = Some (JText (or_else (Some (message e)) "Failed to analyze policy"))
    /\ (forall e0, form_parse w = inl e0 -> e = e0)
    /\ (forall file e0,
          form_parse w = inr (Some file) ->
          readFileSync w (filepath file) = inl e0 -> e = e0).
Proof.
  intros Hdev.
  destruct (handler_cases w req)
    as [[Hm ->] | [(Ho & Hp & ->) | [(Hp & K & ->) | (Hp & K & ->)]]]; simpl;
    try discriminate.
  destruct (try_block w []) as [[[st b']|e|st b'] t] eqn:E; simpl.
  - destruct (try_block_value _ _ _ _ E)
      as (f & c & n & x & k & r & raw & H); decompose [and] H; subst st.
    discriminate.
  - intros _ H; injection H as <-.
    exists e, t. split; [reflexivity|].
    split; [unfold error_body; rewrite Hdev; reflexivity|].
    split; [apply error_body_error|].
    revert E. unfold_run. split.
    + intros e0 Hf. revert E. rewrite Hf. intros E; injection E as <- _.
      reflexivity.
    + intros file e0 Hf Hr. revert E. rewrite Hf, Hr.
      intros E; injection E as <- _. reflexivity.
  - destruct (try_block_returned _ _ _ _ E) as [-> _]. discriminate.
Qed.

Lemma details_in_development_witness :
  is_development world_form_error = true
  /\ status (fst (handler world_form_error good_post)) = 500%N
  /\ json_body (fst (handler world_form_error good_post))
     = Some (error_body world_form_error
               (mkError "maxFileSize exceeded" "Error: maxFileSize exceeded"))
  /\ get "details"
       (error_body world_form_error
          (mkError "maxFileSize exceeded" "Error: maxFileSize exceeded"))
     = Some (JText "Error: maxFileSize exceeded").
Proof.
  repeat (split; [reflexivity|]).
  destruct (details_in_development world_form_error good_post
              (error_body world_form_error
                 (mkError "maxFileSize exceeded" "Error: maxFileSize exceeded"))
              eq_refl eq_refl eq_refl)
    as (e & t & _ & Hd & _ & Hform & _).
  rewrite Hd, (Hform _ eq_refl). reflexivity.
Defined.

End RunSpec.

(** ** The outcome of a run, path by path *)

Module OutcomeSpec.

Import JsString RegExp Json AnalyzePolicy Scenario Variations.
Import HandlerSpec InvokerSpec RunSpec.

Lemma or_else_message (msg : string) :
  (msg <> "" -> or_else (Some msg) "Failed to analyze policy" = msg)
  /\ (msg = "" -> or_else (Some msg) "Failed to analyze policy"
                  = "Failed to analyze policy").
Proof.
  split.
  - destruct msg; [contradiction | reflexivity].
  - intros ->. reflexivity.
Qed.

(** X9: The successful run: an authorized POST with a named, readable file,
    a configured model key and a 2xx answer holding the text [raw] builds
    the success envelope [b], whatever [raw] is: it holds the normalized
    reply, the file name and the extension.  When [b] can be serialized the
    answer is 200 with [b]; when its serialization throws, the answer is the
    500 envelope of that error.  Either way the actions are the form parse,
    the read and one call. *)
Theorem run_success (w : world) (req : request) (file : policy_file)
    (fileContent : list byte) (fileName ext key raw : string)
    (resp : http_response) :
  method req = "POST" ->
  x_api_key req = Some (serverApiKey w) ->
  form_parse w = inr (Some file) ->
  readFileSync w (filepath file) = inr fileContent ->
  originalFilename file = Some fileName ->
  fileExtension fileName = Some ext ->
  env_OPENAI_API_KEY w = Some key ->
  key <> "" ->
  fetch w (chat_request key (userContent ext fileName fileContent)) = inr resp ->
  ok resp = true ->
  http_content resp = inr raw ->
  exists b,
    handler w req
    = (match stringify_error w b with
       | None => mkResponse 200 cors_headers (Some b)
       | Some e => mkResponse 500 cors_headers (Some (error_body w e))
       end,
       [ FormParse; ReadFile (filepath file);
         Fetch (chat_request key (userContent ext fileName fileContent)) ])
    /\ get "success" b = Some (JBool true)
    /\ get "analysis_id" b = Some (JText (analysisId w))
    /\ get "data" b = Some (analysisData raw)
    /\ get2 "metadata" "file_name" b = Some (JText fileName)
    /\ get2 "metadata" "file_type" b = Some (JText ext)
    /\ get2 "metadata" "processed_at" b = Some (JText (date_iso w))
    /\ get2 "metadata" "model_used" b = Some (JText "gpt-4o").
Proof.
  intros Hm Hk Hf Hr Hn He Ho Hne Hfetch Hok Hc.
  exists (success_body w (analysisData raw) fileName ext).
  split; [|repeat split; reflexivity].
  rewrite (handler_authorized w req Hm Hk). unfold_run.
  rewrite Hf, Hr, Hn, He, Ho.
  destruct key as [|a key]; [contradiction|].
  rewrite Hfetch, Hok, Hc.
  destruct (stringify_error w _); reflexivity.
Qed.

Lemma run_success_witness :
  (exists b,
     handler world_prose good_post
     = (match stringify_error world_prose b with
        | None => mkResponse 200 cors_headers (Some b)
        | Some e =>
            mkResponse 500 cors_headers (Some (error_body world_prose e))
        end,
        [ FormParse; ReadFile "/tmp/upload_3f9a";
          Fetch (chat_request "sk-test"
                   (userContent "pdf" "policy.pdf" sample_bytes)) ])
     /\ get "success" b = Some (JBool true)
     /\ get "analysis_id" b = Some (JText "wc_1700000000000_4fzyo82mv")
     /\ get "data" b = Some (analysisData prose_reply)
     /\ get2 "metadata" "file_name" b = Some (JText "policy.pdf")
     /\ get2 "metadata" "file_type" b = Some (JText "pdf")
     /\ get2 "metadata" "processed_at" b
        = Some (JText "2023-11-14T22:13:20.000Z")
     /\ get2 "metadata" "model_used" b = Some (JText "gpt-4o"))
  /\ status (fst (handler world_prose good_post)) = 200%N
  /\ status (fst (handler world_unserializable good_post)) = 500%N.
Proof.
  split; [|split; reflexivity].
  apply (run_success world_prose good_post (sample_file "policy.pdf")
           sample_bytes "policy.pdf" "pdf" "sk-test" prose_reply
           (mkHttp 200 (inr prose_reply) (inr prose_reply)));
    solve [reflexivity | discriminate].
Defined.

(** X10: Without [API_KEY] in the environment, or with an empty one, the secret
    is the built-in text: a POST that carries it is not answered 401 and
    its form is parsed. *)
Theorem built_in_secret_accepted (w : world) (req : request) :
  env_API_KEY w = None \/ env_API_KEY w = Some "" ->
  method req = "POST" ->
  x_api_key req = Some "suRew@y_Insur@nce_2024_S3cur3_K3y" ->
  status (fst (handler w req)) <> 401%N
  /\ exists t, snd (handler w req) = FormParse :: t.
Proof.
  intros He Hm Hk.
  assert (Hs : serverApiKey w = "suRew@y_Insur@nce_2024_S3cur3_K3y").
  { unfold serverApiKey. destruct He as [-> | ->]; reflexivity. }
  rewrite <- Hs in Hk.
  rewrite (handler_authorized w req Hm Hk).
  destruct (try_block_cases w)
    as [[_ ->] | [(e & t & -> & _ & Ht) | (n & x & raw & p & rq & -> & _)]];
    simpl.
  - split; [discriminate | eexists; reflexivity].
  - split; [discriminate|].
    destruct Ht as [-> | [[p ->] | [p [rq ->]]]]; eexists; reflexivity.
  - split; [discriminate | eexists; reflexivity].
Qed.

Lemma built_in_secret_accepted_witness :
  (env_API_KEY world_default_secret = None
   \/ env_API_KEY world_default_secret = Some "")
  /\ method default_post = "POST"
  /\ x_api_key default_post = Some "suRew@y_Insur@nce_2024_S3cur3_K3y"
  /\ status (fst (handler world_default_secret default_post)) <> 401%N
  /\ exists t, snd (handler world_default_secret default_post) = FormParse :: t.
Proof.
  split; [left; reflexivity|]. split; [reflexivity|]. split; [reflexivity|].
  apply (built_in_secret_accepted world_default_secret default_post);
    [left; reflexivity | reflexivity | reflexivity].
Defined.

(** X11: Without [OPENAI_API_KEY], or with an empty one, an upload is answered
    500 "OPENAI_API_KEY not configured": the file has been read, the model
    is not called. *)
Theorem model_key_missing (w : world) (req : request) (file : policy_file)
    (fileContent : list byte) (fileName : string) :
  method req = "POST" ->
  x_api_key req = Some (serverApiKey w) ->
  form_parse w = inr (Some file) ->
  readFileSync w (filepath file) = inr fileContent ->
  originalFilename file = Some fileName ->
  env_OPENAI_API_KEY w = None \/ env_OPENAI_API_KEY w = Some "" ->
  exists b,
    handler w req
    = (mkResponse 500 cors_headers (Some b),
       [FormParse; ReadFile (filepath file)])
    /\ get "success" b = Some (JBool false)
    /\ get "error" b = Some (JText "OPENAI_API_KEY not configured").
Proof.
  intros Hm Hk Hf Hr Hn Ho.
  exists (error_body w (new_error w "OPENAI_API_KEY not configured")).
  split; [|split; [apply error_body_fails | apply error_body_error]].
  rewrite (handler_authorized w req Hm Hk). unfold_run.
  rewrite Hf, Hr, Hn.
  destruct (fileExtension_defined fileName) as [ext ->].
  destruct Ho as [-> | ->]; reflexivity.
Qed.

Lemma model_key_missing_witness :
  exists b,
    handler world_no_model_key good_post
    = (mkResponse 500 cors_headers (Some b),
       [FormParse; ReadFile "/tmp/upload_3f9a"])
    /\ get "success" b = Some (JBool false)
    /\ get "error" b = Some (JText "OPENAI_API_KEY not configured").
Proof.
  apply (model_key_missing world_no_model_key good_post
           (sample_file "policy.pdf") sample_bytes "policy.pdf");
    solve [reflexivity | left; reflexivity].
Defined.

(** X12: A model answer outside 200..299 whose text can be read gives 500 with
    the error "OpenAI API error: " followed by the status in decimal; the
    reply of the model is not looked at. *)
Theorem model_status_error (w : world) (req : request) (file : policy_file)
    (fileContent : list byte) (fileName ext key txt : string)
    (resp : http_response) :
  method req = "POST" ->
  x_api_key req = Some (serverApiKey w) ->
  form_parse w = inr (Some file) ->
  readFileSync w (filepath file) = inr fileContent ->
  originalFilename file = Some fileName ->
  fileExtension fileName = Some ext ->
  env_OPENAI_API_KEY w = Some key ->
  key <> "" ->
  fetch w (chat_request key (userContent ext fileName fileContent)) = inr resp ->
  ok resp = false ->
  http_text resp = inr txt ->
  exists b,
    handler w req
    = (mkResponse 500 cors_headers (Some b),
       [ FormParse; ReadFile (filepath file);
         Fetch (chat_request key (userContent ext fileName fileContent)) ])
    /\ get "success" b = Some (JBool false)
    /\ get "error" b
       = Some (JText ("OpenAI API error: " ++ decimal (http_status resp)))
    /\ get "data" b = None.
Proof.
  intros Hm Hk Hf Hr Hn He Ho Hne Hfetch Hok Ht.
  exists (error_body w
            (new_error w ("OpenAI API error: " ++ decimal (http_status resp)))).
  split.
  - rewrite (handler_authorized w req Hm Hk). unfold_run.
    rewrite Hf, Hr, Hn, He, Ho.
    destruct key as [|a key]; [contradiction|].
    rewrite Hfetch, Hok, Ht. reflexivity.
  - split; [apply error_body_fails|]. split; [apply error_body_error|].
    unfold error_body. destruct (is_development w); reflexivity.
Qed.

Lemma model_status_error_witness :
  exists b,
    handler world_rate_limited good_post
    = (mkResponse 500 cors_headers (Some b),
       [ FormParse; ReadFile "/tmp/upload_3f9a";
         Fetch (chat_request "sk-test"
                  (userContent "pdf" "policy.pdf" sample_bytes)) ])
    /\ get "success" b = Some (JBool false)
    /\ get "error" b = Some (JText "OpenAI API error: 429")
    /\ get "data" b = None.
Proof.
  apply (model_status_error world_rate_limited good_post
           (sample_file "policy.pdf") sample_bytes "policy.pdf" "pdf"
           "sk-test" "rate limit"
           (mkHttp 429 (inr "rate limit") (inl (mkError "no choices" ""))));
    solve [reflexivity | discriminate].
Defined.

(** X13: An error of the form parser gives 500 with the message of that error,
    or "Failed to analyze policy" when the message is empty; no file is read
    and the model is not called. *)
Theorem form_parse_error (w : world) (req : request) (e : js_error) :
  method req = "POST" ->
  x_api_key req = Some (serverApiKey w) ->
  form_parse w = inl e ->
  exists b msg,
    handler w req = (mkResponse 500 cors_headers (Some b), [FormParse])
    /\ get "success" b = Some (JBool false)
    /\ get "error" b = Some (JText msg)
    /\ (message e <> "" -> msg = message e)
    /\ (message e = "" -> msg = "Failed to analyze policy").
Proof.
  intros Hm Hk Hf.
  exists (error_body w e),
         (or_else (Some (message e)) "Failed to analyze policy").
  split.
  - rewrite (handler_authorized w req Hm Hk). unfold_run.
    rewrite Hf. reflexivity.
  - split; [apply error_body_fails|]. split; [apply error_body_error|].
    apply or_else_message.
Qed.

Lemma form_parse_error_witness :
  exists b msg,
    handler world_form_error good_post
    = (mkResponse 500 cors_headers (Some b), [FormParse])
    /\ get "success" b = Some (JBool false)
    /\ get "error" b = Some (JText msg)
    /\ ("maxFileSize exceeded" <> "" -> msg = "maxFileSize exceeded")
    /\ ("maxFileSize exceeded" = "" -> msg = "Failed to analyze policy").
Proof.
  apply (form_parse_error world_form_error good_post
           (mkError "maxFileSize exceeded" "Error: maxFileSize exceeded"));
    reflexivity.
Defined.

(** X14: A file that cannot be read, or that has no name, gives 500 after the
    read; the model is not called. *)
Theorem upload_unusable (w : world) (req : request) (file : policy_file) :
  method req = "POST" ->
  x_api_key req = Some (serverApiKey w) ->
  form_parse w = inr (Some file) ->
  (exists e, readFileSync w (filepath file) = inl e)
  \/ originalFilename file = None ->
  exists b,
    handler w req
    = (mkResponse 500 cors_headers (Some b),
       [FormParse; ReadFile (filepath file)])
    /\ get "success" b = Some (JBool false).
Proof.
  intros Hm Hk Hf H.
  rewrite (handler_authorized w req Hm Hk). unfold_run. rewrite Hf.
  destruct (readFileSync w (filepath file)) as [e|bytes].
  - eexists. split; [reflexivity | apply error_body_fails].
  - destruct H as [[e He] | Hn]; [discriminate|].
    rewrite Hn. eexists. split; [reflexivity | apply error_body_fails].
Qed.

Lemma upload_unusable_witness :
  exists b,
    handler world_read_error good_post
    = (mkResponse 500 cors_headers (Some b),
       [FormParse; ReadFile "/tmp/upload_3f9a"])
    /\ get "success" b = Some (JBool false).
Proof.
  apply (upload_unusable world_read_error good_post (sample_file "policy.pdf"));
    [reflexivity | reflexivity | reflexivity |].
  left. eexists. reflexivity.
Defined.

End OutcomeSpec.

(** ** The extension of a file name *)

Module ExtensionSpec.

Import JsString RegExp Json AnalyzePolicy Scenario Variations.
Import JsStringFacts HandlerSpec InvokerSpec RunSpec.

Lemma lower_char_idem (a : ascii) : lower_char (lower_char a) = lower_char a.
Proof. destruct a as [[] [] [] [] [] [] [] []]; reflexivity. Qed.

Lemma lower_char_dot (a : ascii) :
  Ascii.eqb (lower_char a) "." = Ascii.eqb a ".".
Proof. destruct a as [[] [] [] [] [] [] [] []]; reflexivity. Qed.

Lemma toLowerCase_idem (s : string) : toLowerCase (toLowerCase s) = toLowerCase s.
Proof.
  induction s as [|a s IH]; simpl; [reflexivity|].
  rewrite lower_char_idem, IH. reflexivity.
Qed.

Lemma indexOf_toLowerCase_dot (s : string) :
  indexOf "." (toLowerCase s) = indexOf "." s.
Proof.
  induction s as [|a s IH]; simpl; [reflexivity|].
  rewrite lower_char_dot, IH. reflexivity.
Qed.

(** Lower-casing commutes with cutting at the dots. *)
Lemma split_toLowerCase (s : string) :
  split "." (toLowerCase s) = map toLowerCase (split "." s).
Proof.
  induction s as [|a s IH]; simpl; [reflexivity|].
  rewrite lower_char_dot, IH.
  destruct (Ascii.eqb a "."); [reflexivity|].
  destruct (split "." s); reflexivity.
Qed.

Lemma pop_map (f : string -> string) (l : list string) :
  pop (map f l) = option_map f (pop l).
Proof.
  induction l as [|x l IH]; [reflexivity|].
  destruct l as [|y l]; [reflexivity|]. exact IH.
Qed.

Lemma pop_app (l1 l2 : list string) :
  l2 <> [] -> pop (l1 ++ l2)%list = pop l2.
Proof.
  intros H. induction l1 as [|x l1 IH]; [reflexivity|].
  simpl. destruct (l1 ++ l2)%list eqn:E; [|exact IH].
  apply app_eq_nil in E. destruct E as [_ E]. contradiction.
Qed.

(** Cutting a text with a separator in it: the segments before, then the
    segments after. *)
Lemma split_app (sep : ascii) (b e : string) :
  split sep (b ++ String sep e) = (split sep b ++ split sep e)%list.
Proof.
  induction b as [|a b IH]; simpl.
  - rewrite Ascii.eqb_refl. reflexivity.
  - rewrite IH. destruct (Ascii.eqb a sep); [reflexivity|].
    destruct (split sep b) as [|seg segs] eqn:E; [|reflexivity].
    destruct (split_not_nil _ _ E).
Qed.

(** No segment holds the separator. *)
Lemma split_segments (sep : ascii) (s seg : string) :
  In seg (split sep s) -> indexOf sep seg = None.
Proof.
  revert seg; induction s as [|a s IH]; simpl; intros seg H.
  - destruct H as [<- | []]. reflexivity.
  - destruct (Ascii.eqb a sep) eqn:E.
    + destruct H as [<- | H]; [reflexivity | apply IH; exact H].
    + destruct (split sep s) as [|x l].
      * destruct H as [<- | []]. simpl. rewrite E. reflexivity.
      * destruct H as [<- | H].
        -- simpl. rewrite E, (IH x); [reflexivity | left; reflexivity].
        -- apply IH. right. exact H.
Qed.

Lemma pop_in (l : list string) (x : string) : pop l = Some x -> In x l.
Proof.
  induction l as [|y l IH]; [discriminate|].
  destruct l as [|z l].
  - intros H; injection H as <-. left; reflexivity.
  - intros H. right. apply IH. exact H.
Qed.

(** X15: The extension is the text after the last dot, in lower case. *)
Theorem extension_after_last_dot (base ext : string) :
  indexOf "." ext = None ->
  fileExtension (base ++ "." ++ ext) = Some (toLowerCase ext).
Proof.
  intros H. unfold fileExtension.
  change (base ++ "." ++ ext) with (base ++ String "." ext).
  rewrite split_app, pop_app by apply split_not_nil.
  rewrite (split_without_sep _ _ H). reflexivity.
Qed.

Lemma extension_after_last_dot_witness :
  indexOf "." "PDF" = None
  /\ fileExtension ("Policy.2024.final" ++ "." ++ "PDF") = Some "pdf".
Proof.
  split; [reflexivity|].
  apply (extension_after_last_dot "Policy.2024.final" "PDF"). reflexivity.
Defined.

(** X16: The extension holds no dot and no capital letter: lower-casing it again
    changes nothing. *)
Theorem extension_is_lower_case_without_dot (fileName ext : string) :
  fileExtension fileName = Some ext ->
  indexOf "." ext = None /\ toLowerCase ext = ext.
Proof.
  unfold fileExtension. intros H.
  destruct (pop (split "." fileName)) as [seg|] eqn:E; [|discriminate].
  injection H as <-. split.
  - rewrite indexOf_toLowerCase_dot.
    apply (split_segments "." fileName). apply pop_in. exact E.
  - apply toLowerCase_idem.
Qed.

Lemma extension_is_lower_case_without_dot_witness :
  fileExtension "Scan.JPEG" = Some "jpeg"
  /\ indexOf "." "jpeg" = None /\ toLowerCase "jpeg" = "jpeg".
Proof.
  split; [reflexivity|].
  apply (extension_is_lower_case_without_dot "Scan.JPEG" "jpeg"). reflexivity.
Defined.

(** X17: For names whose code units are all in 0..255, the texts of this
    model, on which lower-casing works character by character: names that
    differ only in the case of their letters have the same extension. *)
Theorem extension_ignores_case (n1 n2 : string) :
  toLowerCase n1 = toLowerCase n2 ->
  fileExtension n1 = fileExtension n2.
Proof.
  intros H.
  assert (Hl : forall n, fileExtension (toLowerCase n) = fileExtension n).
  { intros n. unfold fileExtension. rewrite split_toLowerCase, pop_map.
    destruct (pop (split "." n)); simpl; [|reflexivity].
    rewrite toLowerCase_idem. reflexivity. }
  rewrite <- (Hl n1), <- (Hl n2), H. reflexivity.
Qed.

Lemma extension_ignores_case_witness :
  toLowerCase "SCAN.PNG" = toLowerCase "scan.png"
  /\ fileExtension "SCAN.PNG" = fileExtension "scan.png".
Proof.
  split; [reflexivity|].
  apply (extension_ignores_case "SCAN.PNG" "scan.png"). reflexivity.
Defined.

Lemma toLowerCase_empty (s : string) : toLowerCase s = "" <-> s = "".
Proof. destruct s; simpl; split; intros H; try discriminate; reflexivity. Qed.

Lemma pop_split_empty (sep : ascii) (s : string) :
  pop (split sep s) = Some ""
  <-> (s = "" \/ exists b, s = b ++ String sep "").
Proof.
  induction s as [|a s IH]; simpl.
  - split; [intros _; left; reflexivity | reflexivity].
  - destruct (Ascii.eqb_spec a sep) as [->|Hne].
    + destruct (split sep s) as [|x l] eqn:E; [destruct (split_not_nil _ _ E)|].
      change (pop ("" :: x :: l)) with (pop (x :: l)).
      rewrite IH. split.
      * intros [-> | [b ->]]; right; [exists ""; reflexivity|].
        exists (String sep b); reflexivity.
      * intros [H | [b H]]; [discriminate|].
        destruct b as [|c b]; simpl in H.
        -- injection H as H2. left. exact H2.
        -- injection H as H1 H2. right. exists b. exact H2.
    + destruct (split sep s) as [|x l] eqn:E; [destruct (split_not_nil _ _ E)|].
      destruct l as [|y l].
      * simpl. split; [discriminate|].
        intros [H | [b H]]; [discriminate|].
        destruct b as [|c b]; simpl in H; injection H as H1 H2.
        -- contradiction.
        -- assert (Hs : pop [x] = Some "") by (apply IH; right; exists b; exact H2).
           simpl in Hs. injection Hs as ->.
           (* the rest ends with the separator, so it has two segments *)
           rewrite H2, split_app in E.
           destruct (split sep b) as [|u v] eqn:Eb;
             [destruct (split_not_nil _ _ Eb)|].
           destruct v; discriminate.
      * change (pop (String a x :: y :: l)) with (pop (x :: y :: l)).
        rewrite IH. split.
        -- intros [H | [b ->]]; [subst s; discriminate|].
           right. exists (String a b). reflexivity.
        -- intros [H | [b H]]; [discriminate|].
           destruct b as [|c b]; simpl in H; injection H as H1 H2.
           ++ contradiction.
           ++ right. exists b. exact H2.
Qed.

(** X18: The extension is empty exactly for the empty name and for the names
    that end with a dot. *)
Theorem extension_empty_iff (fileName : string) :
  fileExtension fileName = Some ""
  <-> (fileName = "" \/ exists base, fileName = base ++ ".").
Proof.
  unfold fileExtension. rewrite <- (pop_split_empty "." fileName).
  destruct (pop (split "." fileName)) as [seg|]; simpl.
  - split; intros H; injection H as H.
    + apply (proj1 (toLowerCase_empty seg)) in H. rewrite H. reflexivity.
    + rewrite H. reflexivity.
  - split; discriminate.
Qed.



End ExtensionSpec.

(** ** Cleaning the reply and finding the span *)

Module CleaningSpec.

Import JsString RegExp Json AnalyzePolicy Scenario Variations.
Import JsStringFacts RegExpFacts NormalizerSpec.

(** *** Literal patterns *)

Lemma match_lit_none (p : string) (r : regex) (s : string) :
  startsWith p s = false -> match_here (lit p ++ r)%list s = None.
Proof.
  revert s; induction p as [|a p IH]; intros s; simpl; [discriminate|].
  destruct s as [|b s]; [reflexivity|].
  rewrite (Ascii.eqb_sym b a).
  destruct (Ascii.eqb a b); simpl; [|reflexivity].
  intros H. rewrite (IH s H). reflexivity.
Qed.

Lemma match_lit_some (p : string) (r : regex) (t : string) :
  match_here (lit p ++ r)%list (p ++ t)
  = match match_here r t with
    | Some (m, rest) => Some (p ++ m, rest)
    | None => None
    end.
Proof.
  induction p as [|a p IH]; simpl.
  - destruct (match_here r t) as [[m rest]|]; reflexivity.
  - rewrite Ascii.eqb_refl, IH.
    destruct (match_here r t) as [[m rest]|]; reflexivity.
Qed.

Lemma startsWith_split (p s : string) :
  startsWith p s = true -> exists t, s = p ++ t.
Proof.
  revert s; induction p as [|a p IH]; intros s; simpl.
  - intros _. exists s. reflexivity.
  - destruct s as [|b s]; [discriminate|].
    destruct (Ascii.eqb_spec a b) as [->|]; simpl; [|discriminate].
    intros H. destruct (IH s H) as [t ->]. exists t. reflexivity.
Qed.

Lemma startsWith_longer (p q s : string) :
  startsWith p s = false -> startsWith (p ++ q) s = false.
Proof.
  revert s; induction p as [|a p IH]; intros s; simpl; [discriminate|].
  destruct s as [|b s]; [reflexivity|].
  destruct (Ascii.eqb a b); simpl; [apply IH | reflexivity].
Qed.

Lemma includes_cons (p : string) (a : ascii) (s : string) :
  includes p (String a s) = false ->
  startsWith p (String a s) = false /\ includes p s = false.
Proof.
  intros H. change (startsWith p (String a s) || includes p s = false) in H.
  apply orb_false_iff in H. exact H.
Qed.

(** Where the text does not go on with three backquotes neither fence
    pattern matches; where it does, [/```\n?/] matches three or four
    characters. *)
Lemma fence_none (s : string) :
  startsWith "```" s = false -> match_here fence s = None.
Proof. apply (match_lit_none "```"). Qed.

Lemma fence_json_none (s : string) :
  startsWith "```" s = false -> match_here fence_json s = None.
Proof.
  intros H. apply (match_lit_none "```json").
  apply (startsWith_longer "```" "json"). exact H.
Qed.

Lemma fence_some (s : string) :
  startsWith "```" s = true ->
  exists m rest, match_here fence s = Some (m, rest)
                 /\ (String.length m = 3 \/ String.length m = 4).
Proof.
  intros H. destruct (startsWith_split _ _ H) as [t ->].
  unfold fence. rewrite match_lit_some.
  destruct t as [|a t]; simpl.
  - eexists; eexists; split; [reflexivity | left; reflexivity].
  - destruct (Ascii.eqb a "010"); eexists; eexists;
      (split; [reflexivity|]); [right | left]; reflexivity.
Qed.

(** *** A reply without fences *)

Lemma remove_none (r : regex) (s : string) :
  (forall t, startsWith "```" t = false -> match_here r t = None) ->
  includes "```" s = false ->
  remove_from r 0 s = s.
Proof.
  intros Hr. induction s as [|a s IH]; [reflexivity|].
  intros H. destruct (includes_cons _ _ _ H) as [Hs Hi].
  cbn [remove_from]. rewrite (Hr _ Hs), (IH Hi). reflexivity.
Qed.

Lemma trimEnd_keeps (s : string) (a : ascii) :
  is_white a = false -> trimEnd (s ++ String a "") = s ++ String a "".
Proof.
  intros Ha. induction s as [|b s IH]; simpl.
  - rewrite Ha. reflexivity.
  - rewrite IH. destruct (s ++ String a "") eqn:E; [|reflexivity].
    destruct s; discriminate.
Qed.

Lemma lastIndexOf_end (a : ascii) (s : string) :
  lastIndexOf a (s ++ String a "") = Some (String.length s).
Proof.
  induction s as [|b s IH]; simpl.
  - rewrite Ascii.eqb_refl. reflexivity.
  - rewrite IH. reflexivity.
Qed.

Lemma substring_all (s : string) : String.substring 0 (String.length s) s = s.
Proof. induction s as [|a s IH]; simpl; [reflexivity | rewrite IH; reflexivity]. Qed.

Lemma length_snoc (s : string) (a : ascii) :
  String.length (s ++ String a "") = S (String.length s).
Proof. induction s as [|b s IH]; simpl; [reflexivity | rewrite IH; reflexivity]. Qed.

(** The span of a text that starts with an opening brace and ends with a
    closing one is the whole text. *)
Lemma jsonMatch_bare (mid : string) :
  jsonMatch ("{" ++ mid ++ "}") = Some ("{" ++ mid ++ "}").
Proof.
  rewrite jsonMatch_widest. unfold widest_span.
  change ("{" ++ mid ++ "}") with (String "{" mid ++ String "}" "") at 2.
  rewrite lastIndexOf_end.
  change (indexOf "{" ("{" ++ mid ++ "}")) with (Some 0).
  change (0 <? String.length (String "{" mid))%nat with true.
  cbv iota. unfold JsString.substring. rewrite Nat.sub_0_r.
  replace (S (String.length (String "{" mid)))
    with (String.length ("{" ++ mid ++ "}")).
  - rewrite substring_all. reflexivity.
  - change ("{" ++ mid ++ "}") with (String "{" (mid ++ String "}" "")).
    simpl. rewrite length_snoc. reflexivity.
Qed.

Lemma trim_bare (mid : string) : trim ("{" ++ mid ++ "}") = "{" ++ mid ++ "}".
Proof.
  unfold trim. change ("{" ++ mid ++ "}") with (String "{" (mid ++ "}")).
  change (trimStart (String "{" (mid ++ "}"))) with (String "{" (mid ++ "}")).
  change (String "{" (mid ++ "}")) with (String "{" mid ++ String "}" "").
  apply trimEnd_keeps. reflexivity.
Qed.

(** X20: A reply that starts with an opening brace, ends with a closing brace
    and holds no three backquotes in a row reaches [JSON.parse] unchanged:
    the data is what the whole reply parses to, or the fallback when it is
    not JSON. *)
Theorem bare_object_verbatim (mid : string) :
  includes "```" ("{" ++ mid ++ "}") = false ->
  cleanedResult ("{" ++ mid ++ "}") = "{" ++ mid ++ "}"
  /\ jsonMatch (cleanedResult ("{" ++ mid ++ "}")) = Some ("{" ++ mid ++ "}")
  /\ analysisData ("{" ++ mid ++ "}")
     = match parse ("{" ++ mid ++ "}") with
       | Some v => v
       | None => fallback ("{" ++ mid ++ "}")
       end.
Proof.
  intros H.
  assert (Hc : cleanedResult ("{" ++ mid ++ "}") = "{" ++ mid ++ "}").
  { unfold cleanedResult, remove_all.
    rewrite (remove_none fence_json _ fence_json_none H).
    rewrite (remove_none fence _ fence_none H).
    apply trim_bare. }
  split; [exact Hc|]. split; [rewrite Hc; apply jsonMatch_bare|].
  unfold analysisData. rewrite Hc, jsonMatch_bare. reflexivity.
Qed.

Lemma bare_object_verbatim_witness :
  includes "```" ("{" ++ (q "a" ++ ": [1, 2]") ++ "}") = false
  /\ analysisData ("{" ++ (q "a" ++ ": [1, 2]") ++ "}")
     = match parse ("{" ++ (q "a" ++ ": [1, 2]") ++ "}") with
       | Some v => v
       | None => fallback ("{" ++ (q "a" ++ ": [1, 2]") ++ "}")
       end.
Proof.
  split; [reflexivity|].
  apply (bare_object_verbatim (q "a" ++ ": [1, 2]")). reflexivity.
Defined.

(** *** A fenced object *)

Lemma remove_skip (r : regex) (p s : string) :
  remove_from r (String.length p) (p ++ s) = remove_from r 0 s.
Proof. induction p as [|a p IH]; [reflexivity | exact IH]. Qed.

(** Where no match starts inside [s], removing from [s ++ t] leaves [s]
    as it is. *)
Lemma remove_app (r : regex) (s t : string) :
  (forall u v, s = u ++ v -> v <> "" -> match_here r (v ++ t) = None) ->
  remove_from r 0 (s ++ t) = s ++ remove_from r 0 t.
Proof.
  induction s as [|a s IH]; intros H; [reflexivity|].
  change (String a s ++ t) with (String a (s ++ t)).
  cbn [remove_from].
  change (String a (s ++ t)) with (String a s ++ t).
  rewrite (H "" (String a s) eq_refl) by discriminate.
  rewrite IH; [reflexivity|].
  intros u v -> Hv. apply (H (String a u) v eq_refl Hv).
Qed.

Lemma includes_suffix (p u v : string) :
  includes p (u ++ v) = false -> startsWith p v = false.
Proof.
  induction u as [|a u IH]; simpl append; intros H.
  - destruct v; simpl in H; apply orb_false_iff in H; apply H.
  - apply IH. apply (includes_cons _ _ _ H).
Qed.

(** Three backquotes cannot start in a text and run over its end into a
    text that starts with another character. *)
Lemma no_straddle (v : string) (c : ascii) (t : string) :
  Ascii.eqb "`" c = false ->
  startsWith "```" v = false ->
  startsWith "```" (v ++ String c t) = false.
Proof.
  intros Hc.
  destruct v as [|a1 [|a2 [|a3 v]]]; intros H.
  - change (Ascii.eqb "`" c && startsWith "``" t = false).
    rewrite Hc. reflexivity.
  - change (Ascii.eqb "`" a1 && (Ascii.eqb "`" c && startsWith "`" t) = false).
    rewrite Hc. apply andb_false_r.
  - change (Ascii.eqb "`" a1 && (Ascii.eqb "`" a2 && (Ascii.eqb "`" c && true))
            = false).
    rewrite Hc. rewrite !andb_false_r. reflexivity.
  - change (Ascii.eqb "`" a1 && (Ascii.eqb "`" a2 && (Ascii.eqb "`" a3 && true))
            = false) in H.
    change (Ascii.eqb "`" a1 && (Ascii.eqb "`" a2 && (Ascii.eqb "`" a3 && true))
            = false).
    exact H.
Qed.

Lemma trimEnd_white (s : string) (w : ascii) :
  is_white w = true -> trimEnd (s ++ String w "") = trimEnd s.
Proof.
  intros Hw. induction s as [|a s IH]; simpl.
  - rewrite Hw. reflexivity.
  - rewrite IH. reflexivity.
Qed.

(** X21: A fence-free object between the opening marker with its line feed and
    a line feed with the closing marker is unwrapped: the cleaned text is
    the object, and the data is what it parses to (the fallback, built on
    the whole reply, when it is not JSON). *)
Theorem fenced_object_unwrapped (mid : string) :
  includes "```" ("{" ++ mid ++ "}") = false ->
  cleanedResult ("```json" ++ lf ++ ("{" ++ mid ++ "}") ++ lf ++ "```")
  = "{" ++ mid ++ "}"
  /\ analysisData ("```json" ++ lf ++ ("{" ++ mid ++ "}") ++ lf ++ "```")
     = match parse ("{" ++ mid ++ "}") with
       | Some v => v
       | None =>
           fallback ("```json" ++ lf ++ ("{" ++ mid ++ "}") ++ lf ++ "```")
       end.
Proof.
  intros H.
  set (X := "{" ++ mid ++ "}") in *.
  assert (Hin : forall u v, X = u ++ v -> v <> "" ->
                  startsWith "```" (v ++ lf ++ "```") = false).
  { intros u v E _. apply no_straddle; [reflexivity|].
    apply (includes_suffix _ u). rewrite <- E. exact H. }
  assert (H1 : remove_all fence_json ("```json" ++ lf ++ X ++ lf ++ "```")
               = X ++ lf ++ "```").
  { unfold remove_all.
    change ("```json" ++ lf ++ X ++ lf ++ "```")
      with (String "`" ("``json" ++ lf ++ X ++ lf ++ "```")).
    cbn [remove_from].
    change (match_here fence_json
              (String "`" ("``json" ++ lf ++ X ++ lf ++ "```")))
      with (match_here (lit "```json" ++ [(Chr "010"%char, Opt)])%list
              ("```json" ++ (lf ++ X ++ lf ++ "```"))).
    rewrite match_lit_some.
    change (match_here [(Chr "010"%char, Opt)] (lf ++ X ++ lf ++ "```"))
      with (Some (lf, X ++ lf ++ "```")).
    cbv iota beta.
    change (String.length ("```json" ++ lf)) with (S (String.length ("``json" ++ lf))).
    cbv iota beta.
    change ("``json" ++ lf ++ X ++ lf ++ "```")
      with (("``json" ++ lf) ++ X ++ lf ++ "```").
    rewrite remove_skip.
    rewrite remove_app; [reflexivity|].
    intros u v E Hv. apply fence_json_none. exact (Hin u v E Hv). }
  assert (H2 : remove_all fence (X ++ lf ++ "```") = X ++ lf).
  { unfold remove_all. rewrite remove_app; [reflexivity|].
    intros u v E Hv. apply fence_none. exact (Hin u v E Hv). }
  assert (Hc : cleanedResult ("```json" ++ lf ++ X ++ lf ++ "```") = X).
  { unfold cleanedResult. rewrite H1, H2. unfold trim.
    change (trimStart (X ++ lf)) with (X ++ String "010"%char "").
    rewrite (trimEnd_white X "010" eq_refl).
    exact (trim_bare mid). }
  split; [exact Hc|].
  unfold analysisData. rewrite Hc. unfold X. rewrite jsonMatch_bare.
  reflexivity.
Qed.

Lemma fenced_object_unwrapped_witness :
  includes "```" ("{" ++ (q "a" ++ ": [1, 2]") ++ "}") = false
  /\ cleanedResult
       ("```json" ++ lf ++ ("{" ++ (q "a" ++ ": [1, 2]") ++ "}") ++ lf ++ "```")
     = "{" ++ (q "a" ++ ": [1, 2]") ++ "}".
Proof.
  split; [reflexivity|].
  apply (fenced_object_unwrapped (q "a" ++ ": [1, 2]")). reflexivity.
Defined.

(** *** What cleaning can and cannot leave behind *)

Lemma indexOf_cons_none (a b : ascii) (s : string) :
  indexOf a (String b s) = None -> Ascii.eqb b a = false /\ indexOf a s = None.
Proof.
  simpl. destruct (Ascii.eqb b a); [discriminate|].
  destruct (indexOf a s); [discriminate|]. split; reflexivity.
Qed.

Lemma indexOf_cons_none_intro (a b : ascii) (s : string) :
  Ascii.eqb b a = false -> indexOf a s = None -> indexOf a (String b s) = None.
Proof. intros H1 H2. simpl. rewrite H1, H2. reflexivity. Qed.

(** Removing matches brings in no character. *)
Lemma remove_absent (r : regex) (a : ascii) (s : string) (k : nat) :
  indexOf a s = None -> indexOf a (remove_from r k s) = None.
Proof.
  revert k; induction s as [|b s IH]; intros k H; [reflexivity|].
  destruct (indexOf_cons_none _ _ _ H) as [Hb Hs].
  cbn [remove_from]. destruct k as [|k]; [|apply IH; exact Hs].
  destruct (match_here r (String b s)) as [[m rest]|].
  - destruct (String.length m).
    + apply indexOf_cons_none_intro; [exact Hb | apply IH; exact Hs].
    + apply IH; exact Hs.
  - apply indexOf_cons_none_intro; [exact Hb | apply IH; exact Hs].
Qed.

Lemma trimStart_absent (a : ascii) (s : string) :
  indexOf a s = None -> indexOf a (trimStart s) = None.
Proof.
  induction s as [|b s IH]; intros H; [reflexivity|].
  cbn [trimStart]. destruct (is_white b); [|exact H].
  apply IH. apply (indexOf_cons_none _ _ _ H).
Qed.

Lemma trimEnd_absent (a : ascii) (s : string) :
  indexOf a s = None -> indexOf a (trimEnd s) = None.
Proof.
  induction s as [|b s IH]; intros H; [reflexivity|].
  destruct (indexOf_cons_none _ _ _ H) as [Hb Hs].
  cbn [trimEnd]. specialize (IH Hs).
  destruct (trimEnd s) as [|c t].
  - destruct (is_white b); [reflexivity|].
    apply indexOf_cons_none_intro; [exact Hb | reflexivity].
  - apply indexOf_cons_none_intro; [exact Hb | exact IH].
Qed.

Lemma cleaned_absent (a : ascii) (raw : string) :
  indexOf a raw = None -> indexOf a (cleanedResult raw) = None.
Proof.
  intros H. unfold cleanedResult, trim, remove_all.
  apply trimEnd_absent, trimStart_absent, remove_absent, remove_absent.
  exact H.
Qed.

Lemma lastIndexOf_absent (a : ascii) (s : string) :
  indexOf a s = None -> lastIndexOf a s = None.
Proof.
  induction s as [|b s IH]; intros H; [reflexivity|].
  destruct (indexOf_cons_none _ _ _ H) as [Hb Hs].
  simpl. rewrite (IH Hs), Hb. reflexivity.
Qed.

(** X22: A reply without an opening brace, or without a closing brace, always
    ends in the fallback. *)
Theorem braceless_reply_falls_back (raw : string) :
  indexOf "{" raw = None \/ indexOf "}" raw = None ->
  takes_fallback raw = true /\ analysisData raw = fallback raw.
Proof.
  intros H.
  assert (Hm : jsonMatch (cleanedResult raw) = None).
  { rewrite jsonMatch_widest. unfold widest_span.
    destruct H as [H | H].
    - rewrite (cleaned_absent _ _ H). reflexivity.
    - rewrite (lastIndexOf_absent _ _ (cleaned_absent _ _ H)).
      destruct (indexOf "{" (cleanedResult raw)); reflexivity. }
  unfold takes_fallback, analysisData. rewrite Hm. split; reflexivity.
Qed.

Lemma braceless_reply_falls_back_witness :
  (indexOf "{" prose_reply = None \/ indexOf "}" prose_reply = None)
  /\ takes_fallback prose_reply = true
  /\ analysisData prose_reply = fallback prose_reply.
Proof.
  split; [left; reflexivity|].
  apply (braceless_reply_falls_back prose_reply). left; reflexivity.
Defined.


(** *** No fence survives *)

Lemma remove_fence_head (c : ascii) (s : string) :
  Ascii.eqb "`" c = false ->
  remove_from fence 0 (String c s) = String c (remove_from fence 0 s).
Proof.
  intros H. cbn [remove_from]. rewrite fence_none; [reflexivity|].
  change (Ascii.eqb "`" c && startsWith "``" s = false).
  rewrite H. reflexivity.
Qed.

Lemma remove_fence_1 (s : string) :
  startsWith "`" s = false -> startsWith "`" (remove_from fence 0 s) = false.
Proof.
  destruct s as [|c s]; [reflexivity|].
  change (startsWith "`" (String c s)) with (Ascii.eqb "`" c && true).
  rewrite andb_true_r. intros H.
  rewrite (remove_fence_head _ _ H).
  change (Ascii.eqb "`" c && true = false). rewrite H. reflexivity.
Qed.

Lemma remove_fence_2 (s : string) :
  startsWith "``" s = false -> startsWith "``" (remove_from fence 0 s) = false.
Proof.
  destruct s as [|b s]; [reflexivity|].
  change (startsWith "``" (String b s))
    with (Ascii.eqb "`" b && startsWith "`" s).
  destruct (Ascii.eqb "`" b) eqn:E; cbn [andb].
  - intros H. cbn [remove_from]. rewrite fence_none.
    + change (startsWith "``" (String b (remove_from fence 0 s)))
        with (Ascii.eqb "`" b && startsWith "`" (remove_from fence 0 s)).
      rewrite (remove_fence_1 _ H). apply andb_false_r.
    + change (startsWith "```" (String b s))
        with (Ascii.eqb "`" b && startsWith ("`" ++ "`") s).
      rewrite (startsWith_longer "`" "`" _ H). apply andb_false_r.
  - intros _. rewrite (remove_fence_head _ _ E).
    change (Ascii.eqb "`" b && startsWith "`" (remove_from fence 0 s) = false).
    rewrite E. reflexivity.
Qed.

Lemma remove_fence_3 (a : ascii) (s : string) :
  startsWith "```" (String a s) = false ->
  startsWith "```" (String a (remove_from fence 0 s)) = false.
Proof.
  change (startsWith "```" (String a s))
    with (Ascii.eqb "`" a && startsWith "``" s).
  change (startsWith "```" (String a (remove_from fence 0 s)))
    with (Ascii.eqb "`" a && startsWith "``" (remove_from fence 0 s)).
  destruct (Ascii.eqb "`" a); cbn [andb]; [apply remove_fence_2 | reflexivity].
Qed.

(** After [replace(/```\n?/g, '')] no three backquotes in a row are left,
    not even ones that the removal would bring together. *)
Lemma remove_fence_clean (s : string) (k : nat) :
  includes "```" (remove_from fence k s) = false.
Proof.
  revert k; induction s as [|a s IH]; intros k; [reflexivity|].
  cbn [remove_from]. destruct k as [|k]; [|apply IH].
  destruct (startsWith "```" (String a s)) eqn:E.
  - destruct (fence_some _ E) as (m & rest & -> & [-> | ->]); apply IH.
  - rewrite (fence_none _ E).
    change (startsWith "```" (String a (remove_from fence 0 s))
            || includes "```" (remove_from fence 0 s) = false).
    rewrite (remove_fence_3 _ _ E), IH. reflexivity.
Qed.

Lemma includes_trimStart (p s : string) :
  includes p s = false -> includes p (trimStart s) = false.
Proof.
  induction s as [|a s IH]; intros H; [exact H|].
  cbn [trimStart]. destruct (is_white a); [|exact H].
  apply IH. apply (includes_cons _ _ _ H).
Qed.

Lemma trimEnd_prefix (s : string) : exists u, s = trimEnd s ++ u.
Proof.
  induction s as [|a s [u IH]]; [exists ""; reflexivity|].
  cbn [trimEnd]. destruct (trimEnd s) as [|c t].
  - destruct (is_white a).
    + exists (String a s). reflexivity.
    + exists s. reflexivity.
  - exists u. simpl. rewrite IH at 1. reflexivity.
Qed.

Lemma startsWith_app (p t u : string) :
  startsWith p t = true -> startsWith p (t ++ u) = true.
Proof.
  revert t; induction p as [|a p IH]; intros t; [reflexivity|].
  destruct t as [|b t]; simpl; [discriminate|].
  destruct (Ascii.eqb a b); simpl; [apply IH | discriminate].
Qed.

Lemma includes_app (p t u : string) :
  includes p t = true -> includes p (t ++ u) = true.
Proof.
  induction t as [|a t IH].
  - simpl. rewrite orb_false_r. intros H.
    destruct p; [destruct u; reflexivity | discriminate].
  - intros H.
    change (startsWith p (String a t) || includes p t = true) in H.
    change (startsWith p (String a t ++ u) || includes p (t ++ u) = true).
    apply orb_true_iff in H. apply orb_true_iff.
    destruct H as [H | H]; [left; apply startsWith_app; exact H|].
    right. apply IH. exact H.
Qed.

Lemma includes_trimEnd (p s : string) :
  includes p s = false -> includes p (trimEnd s) = false.
Proof.
  intros H. destruct (includes p (trimEnd s)) eqn:E; [|reflexivity].
  destruct (trimEnd_prefix s) as [u Hu].
  rewrite Hu, (includes_app _ _ u E) in H. discriminate.
Qed.

(** X23: The cleaned text never holds three backquotes in a row. *)
Theorem cleaned_has_no_fence (raw : string) :
  includes "```" (cleanedResult raw) = false.
Proof.
  unfold cleanedResult, trim, remove_all.
  apply includes_trimEnd, includes_trimStart, remove_fence_clean.
Qed.

(** *** No white space around the cleaned text *)

Lemma trimStart_head (s : string) (a : ascii) (t : string) :
  trimStart s = String a t -> is_white a = false.
Proof.
  induction s as [|b s IH]; [discriminate|].
  cbn [trimStart]. destruct (is_white b) eqn:E; [exact IH|].
  intros H; injection H as <- _. exact E.
Qed.

Lemma trimEnd_head (a : ascii) (s : string) (b : ascii) (t : string) :
  trimEnd (String a s) = String b t -> b = a.
Proof.
  cbn [trimEnd]. destruct (trimEnd s).
  - destruct (is_white a); [discriminate|].
    intros H; injection H as <- _. reflexivity.
  - intros H; injection H as <- _. reflexivity.
Qed.

Lemma trimEnd_last (s pre : string) (z : ascii) :
  trimEnd s = pre ++ String z "" -> is_white z = false.
Proof.
  revert pre; induction s as [|b s IH]; intros pre.
  - destruct pre; discriminate.
  - cbn [trimEnd]. destruct (trimEnd s) as [|c u].
    + destruct (is_white b) eqn:E; [destruct pre; discriminate|].
      destruct pre as [|x pre]; simpl; intros H.
      * injection H as H1. subst z. exact E.
      * injection H as H1 H2. destruct pre; discriminate.
    + destruct pre as [|x pre]; simpl; intros H.
      * injection H as H1 H2. discriminate.
      * injection H as H1 H2. apply (IH pre). exact H2.
Qed.

(** X24: The cleaned text neither starts nor ends with white space. *)
Theorem cleaned_is_trimmed (raw : string) :
  (forall a t, cleanedResult raw = String a t -> is_white a = false)
  /\ (forall pre z, cleanedResult raw = pre ++ String z "" ->
                    is_white z = false).
Proof.
  unfold cleanedResult, trim. split.
  - intros a t H.
    destruct (trimStart (remove_all fence (remove_all fence_json raw)))
      as [|b u] eqn:E; [discriminate|].
    rewrite (trimEnd_head _ _ _ _ H). exact (trimStart_head _ _ _ E).
  - intros pre z H. exact (trimEnd_last _ _ _ H).
Qed.

(** *** The assessment text of the fallback *)

Lemma substring_prefix (n : nat) (s : string) :
  exists rest, s = String.substring 0 n s ++ rest
               /\ String.length (String.substring 0 n s)
                  = Nat.min n (String.length s).
Proof.
  revert s; induction n as [|n IH]; intros s.
  - exists s. rewrite substring_0_0. split; reflexivity.
  - destruct s as [|a s].
    + exists "". split; reflexivity.
    + destruct (IH s) as [rest [H1 H2]]. exists rest. simpl. split.
      * rewrite <- H1. reflexivity.
      * rewrite H2. reflexivity.
Qed.

(** X25: On the fallback path [overall_assessment] is the start of the reply:
    its first 300 characters, or all of it when it is shorter. *)
Theorem fallback_assessment_is_prefix (raw : string) :
  takes_fallback raw = true ->
  exists head rest,
    get2 "executive_summary" "overall_assessment" (analysisData raw)
    = Some (JText head)
    /\ raw = head ++ rest
    /\ String.length head = Nat.min 300 (String.length raw).
Proof.
  intros H. rewrite (fallback_taken raw H).
  destruct (substring_prefix 300 raw) as [rest [H1 H2]].
  exists (JsString.substring 0 300 raw), rest.
  split; [reflexivity|]. split; [exact H1 | exact H2].
Qed.

Lemma fallback_assessment_is_prefix_witness :
  takes_fallback prose_reply = true
  /\ exists head rest,
    get2 "executive_summary" "overall_assessment" (analysisData prose_reply)
    = Some (JText head)
    /\ prose_reply = head ++ rest
    /\ String.length head = Nat.min 300 (String.length prose_reply).
Proof.
  split; [reflexivity|].
  apply (fallback_assessment_is_prefix prose_reply). reflexivity.
Defined.

End CleaningSpec.

(** ** Replies that end in the fallback *)

Module FallbackSpec.

Import JsString RegExp Json AnalyzePolicy Scenario.
Import JsStringFacts RegExpFacts JsonFacts NormalizerSpec CleaningSpec.

Lemma trimEnd_cons (a : ascii) (s : string) :
  is_white a = false -> exists t, trimEnd (String a s) = String a t.
Proof.
  intros H. cbn [trimEnd]. destruct (trimEnd s).
  - rewrite H. eexists; reflexivity.
  - eexists; reflexivity.
Qed.

Lemma substring_snoc (j : nat) (c : string) (a : ascii) :
  String.get j c = Some a ->
  String.substring 0 (S j) c = String.substring 0 j c ++ String a "".
Proof.
  revert c; induction j as [|j IH]; intros [|b c]; simpl; try discriminate.
  - intros H; injection H as ->. rewrite substring_0_0. reflexivity.
  - intros H. rewrite <- (IH c H). reflexivity.
Qed.

Lemma append_assoc3 (s t u v : string) :
  ((s ++ t) ++ u) ++ v = s ++ (t ++ u ++ v).
Proof.
  induction s as [|a s IH]; simpl.
  - induction t as [|b t IHt]; simpl; [reflexivity | rewrite IHt; reflexivity].
  - rewrite IH. reflexivity.
Qed.

(** An object text cut short ends in the fallback: the span starts at the
    first character, so it is the beginning of a text that parses and can
    not parse itself. *)
Lemma cut_short_falls_back (raw : string) :
  cut_short raw -> takes_fallback raw = true.
Proof.
  intros (rest & v & Hs & Hi & Hp & Hb).
  destruct raw as [|a0 r]; [discriminate|].
  change (Ascii.eqb "{" a0 && true = true) in Hs.
  rewrite andb_true_r in Hs.
  apply Ascii.eqb_eq in Hs. subst a0.
  assert (Hc : cleanedResult (String "{" r) = trimEnd (String "{" r)).
  { unfold cleanedResult, remove_all.
    rewrite (remove_none fence_json _ fence_json_none Hi).
    rewrite (remove_none fence _ fence_none Hi). reflexivity. }
  unfold takes_fallback. rewrite Hc, jsonMatch_widest. unfold widest_span.
  destruct (trimEnd_cons "{" r eq_refl) as [t Et].
  destruct (trimEnd_prefix (String "{" r)) as [u Hu].
  rewrite Et in *.
  change (indexOf "{" (String "{" t)) with (Some 0).
  destruct (lastIndexOf "}" (String "{" t)) as [j|] eqn:Ej; [|reflexivity].
  destruct (0 <? j)%nat; [|reflexivity].
  destruct (parse (JsString.substring 0 (S j) (String "{" t))) as [v2|] eqn:P;
    [exfalso | reflexivity].
  unfold JsString.substring in P. rewrite Nat.sub_0_r in P.
  destruct (lastIndexOf_last _ _ _ Ej) as [Hg _].
  destruct (substring_prefix (S j) (String "{" t)) as [rc [Hrc _]].
  rewrite (substring_snoc _ _ _ Hg) in P, Hrc.
  rewrite Hu, Hrc, append_assoc3 in Hp.
  pose proof (parse_no_extension _ _ _ _ P Hp) as Hblank.
  apply blank_app, blank_app in Hblank.
  rewrite Hblank in Hb. discriminate.
Qed.

(** C3, amended: the normalizer returns data with a confidence score, a
    non-empty list of actions and the original text verbatim whenever the
    cleaned text has no brace span or its span is rejected by [JSON.parse].
    That is the case of every reply without an opening or without a closing
    brace (the empty reply, prose) and of every object text cut short. *)
Theorem C3_fallback_result (raw : string) :
  takes_fallback raw = true
  \/ indexOf "{" raw = None
  \/ indexOf "}" raw = None
  \/ cut_short raw ->
  takes_fallback raw = true
  /\ get2 "executive_summary" "confidence_score" (analysisData raw)
     = Some (JInt 85)
  /\ (exists a rest,
        get2 "savings_opportunities" "immediate_actions" (analysisData raw)
        = Some (JArray (a :: rest)))
  /\ get "full_analysis_text" (analysisData raw) = Some (JText raw).
Proof.
  intros H.
  assert (F : takes_fallback raw = true).
  { destruct H as [H | [H | [H | H]]].
    - exact H.
    - unfold takes_fallback. rewrite jsonMatch_widest. unfold widest_span.
      rewrite (cleaned_absent _ _ H). reflexivity.
    - unfold takes_fallback. rewrite jsonMatch_widest. unfold widest_span.
      rewrite (lastIndexOf_absent _ _ (cleaned_absent _ _ H)).
      destruct (indexOf "{" (cleanedResult raw)); reflexivity.
    - apply cut_short_falls_back. exact H. }
  split; [exact F|]. rewrite (fallback_taken raw F).
  split; [reflexivity|]. split; [|reflexivity].
  eexists. eexists. reflexivity.
Qed.

Lemma C3_fallback_result_witness :
  cut_short truncated_reply
  /\ takes_fallback truncated_reply = true
  /\ get "full_analysis_text" (analysisData truncated_reply)
     = Some (JText truncated_reply).
Proof.
  assert (H : cut_short truncated_reply).
  { exists "0}}". eexists. repeat split; vm_compute; reflexivity. }
  split; [exact H|].
  destruct (C3_fallback_result truncated_reply) as (F & _ & _ & T).
  - right. right. right. exact H.
  - split; [exact F | exact T].
Defined.

(** Not every truncated JSON text is covered: an array cut off after a
    complete object holds a span that parses, and the data is that
    object. *)
Lemma truncated_array_parses :
  parse truncated_array_reply = None
  /\ takes_fallback truncated_array_reply = false
  /\ jsonMatch (cleanedResult truncated_array_reply)
     = Some ("{" ++ q "a" ++ ":1}")
  /\ analysisData truncated_array_reply = obj [("a", JInt 1)]
  /\ get "full_analysis_text" (analysisData truncated_array_reply) = None.
Proof. vm_compute. repeat split. Qed.

End FallbackSpec.

(** ** The base64 text of the file *)

Module Base64Spec.

Import JsString Json AnalyzePolicy Scenario Variations Base64 Base64Value.

Lemma all_below_spec (n : nat) (p : N -> bool) :
  all_below n p = true -> forall x, (x < N.of_nat n)%N -> p x = true.
Proof.
  induction n as [|n IH]; simpl; intros H x Hx; [lia|].
  apply andb_true_iff in H. destruct H as [H1 H2].
  destruct (N.eq_dec x (N.of_nat n)) as [->|Hne]; [exact H1|].
  apply IH; [exact H2 | lia].
Qed.

Lemma byte_below (x : byte) : (b x < N.of_nat 256)%N.
Proof. unfold b. pose proof (Byte.to_N_bounded x). lia. Qed.

Lemma b_inj (x y : byte) : b x = b y -> x = y.
Proof.
  unfold b. intros H.
  pose proof (Byte.of_to_N x) as Hx. pose proof (Byte.of_to_N y) as Hy.
  rewrite H in Hx. rewrite Hx in Hy. injection Hy as ->. reflexivity.
Qed.

(** *** Length *)

Lemma list_ind3 (P : list byte -> Prop) :
  P [] -> (forall x, P [x]) -> (forall x y, P [x; y]) ->
  (forall x y z l, P l -> P (x :: y :: z :: l)) ->
  forall l, P l.
Proof.
  intros H0 H1 H2 H3.
  assert (H : forall l, P l /\ (forall x, P (x :: l))
                        /\ (forall x y, P (x :: y :: l))).
  { induction l as [|a l (IHa & IHb & IHc)].
    - repeat split; [exact H0 | exact H1 | exact H2].
    - split; [apply IHb|]. split; [intros x; apply IHc|].
      intros x y. apply H3. exact IHa. }
  intros l. apply (H l).
Qed.

(** X26: The text has four characters for every three bytes, the last group
    being padded: its length is four times the number of groups. *)
Theorem encode_length (bs : list byte) :
  String.length (encode bs) = 4 * ((List.length bs + 2) / 3).
Proof.
  induction bs as [|x|x y|x y z l IH] using list_ind3; try reflexivity.
  cbn [encode String.length List.length]. rewrite IH.
  replace (S (S (S (List.length l))) + 2) with (List.length l + 2 + 1 * 3) by lia.
  rewrite Nat.div_add by discriminate. lia.
Qed.

(** *** Nothing is lost *)

Lemma sextet_not_pad (n : N) : sextet n <> "="%char.
Proof.
  destruct n as [|p]; [discriminate|].
  do 7 (try destruct p as [p|p|]); discriminate.
Qed.

(** The first byte of a group, from its first two characters. *)
Lemma first_byte :
  all_below 256 (fun x => all_below 256 (fun y =>
    (4 * value_of (s1 x) + value_of (s2 x y) / 16 =? x)%N)) = true.
Proof. vm_compute. reflexivity. Qed.

(** The second byte, from the second and third characters; [a] stands for
    the low two bits of the first byte and [c] for the high two bits of the
    third. *)
Lemma second_byte :
  all_below 4 (fun a => all_below 256 (fun y => all_below 4 (fun c =>
    ((value_of (sextet (N.lor (N.shiftl a 4) (N.shiftr y 4))) mod 16) * 16
      + value_of (sextet (N.lor (N.shiftl (N.land y 15) 2) c)) / 4 =? y)%N)))
  = true.
Proof. vm_compute. reflexivity. Qed.

(** The third byte, from the third and fourth characters; [d] stands for the
    low four bits of the second byte. *)
Lemma third_byte :
  all_below 16 (fun d => all_below 256 (fun z =>
    ((value_of (sextet (N.lor (N.shiftl d 2) (N.shiftr z 6))) mod 4) * 64
      + value_of (s4 z) =? z)%N)) = true.
Proof. vm_compute. reflexivity. Qed.

Lemma low_bits :
  all_below 256 (fun x =>
    (N.land x 3 <? 4)%N && (N.land x 15 <? 16)%N && (N.shiftr x 6 <? 4)%N)
  = true.
Proof. vm_compute. reflexivity. Qed.

Lemma low_bits_of (x : byte) :
  (N.land (b x) 3 < N.of_nat 4)%N /\ (N.land (b x) 15 < N.of_nat 16)%N
  /\ (N.shiftr (b x) 6 < N.of_nat 4)%N.
Proof.
  pose proof (all_below_spec _ _ low_bits (b x) (byte_below x)) as H.
  apply andb_true_iff in H. destruct H as [H H3].
  apply andb_true_iff in H. destruct H as [H1 H2].
  apply N.ltb_lt in H1, H2, H3. simpl N.of_nat. lia.
Qed.

Lemma first_byte_of (x y : byte) :
  (4 * value_of (s1 (b x)) + value_of (s2 (b x) (b y)) / 16)%N = b x.
Proof.
  apply N.eqb_eq.
  exact (all_below_spec _ _
           (all_below_spec _ _ first_byte (b x) (byte_below x))
           (b y) (byte_below y)).
Qed.

Lemma first_byte_alone (x : byte) :
  (4 * value_of (s1 (b x)) + value_of (s2 (b x) 0) / 16)%N = b x.
Proof.
  apply N.eqb_eq.
  apply (all_below_spec _ _
           (all_below_spec _ _ first_byte (b x) (byte_below x)) 0%N).
  reflexivity.
Qed.

Lemma second_byte_gen (x y : byte) (c : N) :
  (c < N.of_nat 4)%N ->
  ((value_of (s2 (b x) (b y)) mod 16) * 16
   + value_of (sextet (N.lor (N.shiftl (N.land (b y) 15) 2) c)) / 4)%N = b y.
Proof.
  intros Hc. apply N.eqb_eq. unfold s2.
  destruct (low_bits_of x) as [Ha _].
  exact (all_below_spec _ _
           (all_below_spec _ _
              (all_below_spec _ _ second_byte _ Ha) (b y) (byte_below y))
           c Hc).
Qed.

Lemma second_byte_of (x y z : byte) :
  ((value_of (s2 (b x) (b y)) mod 16) * 16 + value_of (s3 (b y) (b z)) / 4)%N
  = b y.
Proof. apply second_byte_gen. apply (low_bits_of z). Qed.

Lemma second_byte_last (x y : byte) :
  ((value_of (s2 (b x) (b y)) mod 16) * 16 + value_of (s3 (b y) 0) / 4)%N
  = b y.
Proof. apply (second_byte_gen x y 0%N). reflexivity. Qed.

Lemma third_byte_of (y z : byte) :
  ((value_of (s3 (b y) (b z)) mod 4) * 64 + value_of (s4 (b z)))%N = b z.
Proof.
  apply N.eqb_eq. unfold s3.
  destruct (low_bits_of y) as [_ [Hd _]].
  exact (all_below_spec _ _
           (all_below_spec _ _ third_byte _ Hd) (b z) (byte_below z)).
Qed.

Lemma quad_inj (c1 c2 c3 c4 d1 d2 d3 d4 : ascii) (t u : string) :
  String c1 (String c2 (String c3 (String c4 t)))
  = String d1 (String d2 (String d3 (String d4 u))) ->
  c1 = d1 /\ c2 = d2 /\ c3 = d3 /\ c4 = d4 /\ t = u.
Proof. intros H. injection H as -> -> -> -> ->. repeat split. Qed.

Ltac pad_clash :=
  exfalso;
  match goal with
  | H : _ = "="%char |- _ => exact (sextet_not_pad _ H)
  | H : "="%char = _ |- _ => exact (sextet_not_pad _ (eq_sym H))
  end.

(** Different contents have different texts. *)
Lemma encode_inj (bs1 bs2 : list byte) :
  encode bs1 = encode bs2 -> bs1 = bs2.
Proof.
  revert bs2.
  induction bs1 as [|x|x y|x y z l IH] using list_ind3;
    intros [|x' [|y' [|z' l']]]; cbn [encode]; intros H;
    try discriminate; try reflexivity;
    apply quad_inj in H; destruct H as (H1 & H2 & H3 & H4 & H5).
  - f_equal. apply b_inj.
    rewrite <- (first_byte_alone x), <- (first_byte_alone x'), H1, H2.
    reflexivity.
  - pad_clash.
  - clear H4. pad_clash.
  - clear H4. pad_clash.
  - assert (Ex : x = x').
    { apply b_inj.
      rewrite <- (first_byte_of x y), <- (first_byte_of x' y'), H1, H2.
      reflexivity. }
    assert (Ey : y = y').
    { apply b_inj.
      rewrite <- (second_byte_last x y), <- (second_byte_last x' y'), H2, H3.
      reflexivity. }
    subst. reflexivity.
  - pad_clash.
  - clear H4. pad_clash.
  - pad_clash.
  - assert (Ex : x = x').
    { apply b_inj.
      rewrite <- (first_byte_of x y), <- (first_byte_of x' y'), H1, H2.
      reflexivity. }
    assert (Ey : y = y').
    { apply b_inj.
      rewrite <- (second_byte_of x y z), <- (second_byte_of x' y' z'), H2, H3.
      reflexivity. }
    assert (Ez : z = z').
    { apply b_inj.
      rewrite <- (third_byte_of y z), <- (third_byte_of y' z'), H3, H4.
      reflexivity. }
    subst. f_equal. f_equal. f_equal. apply IH. exact H5.
Qed.

Lemma append_cancel (p s t : string) : p ++ s = p ++ t -> s = t.
Proof.
  induction p as [|a p IH]; simpl; intros H; [exact H|].
  injection H as H. apply IH. exact H.
Qed.

(** X27: For an image upload the user content determines the bytes of the file:
    two files with the same name and different contents are sent as
    different contents. *)
Theorem image_content_injective (ext fileName : string) (b1 b2 : list byte) :
  is_image ext = true ->
  userContent ext fileName b1 = userContent ext fileName b2 ->
  b1 = b2.
Proof.
  intros Hi. unfold userContent, contentArray. rewrite Hi, orb_true_r.
  intros H. injection H as H.
  apply append_cancel in H. injection H as H.
  apply encode_inj. exact H.
Qed.

Lemma image_content_injective_witness :
  is_image "png" = true
  /\ userContent "png" "scan.png" sample_bytes
     = userContent "png" "scan.png" sample_bytes
  /\ sample_bytes = sample_bytes.
Proof.
  split; [reflexivity|]. split; [reflexivity|].
  apply (image_content_injective "png" "scan.png" sample_bytes sample_bytes);
    reflexivity.
Defined.

End Base64Spec.

(** ** The outbound call and the headers *)

Module OutboundSpec.

Import JsString RegExp Json AnalyzePolicy Scenario Variations.
Import JsStringFacts HandlerSpec InvokerSpec RunSpec.

(** A model call inside the [try] block is the call for the uploaded
    file: its form entry, its name, its extension and its bytes. *)
Lemma try_block_fetch (w : world) (rq : completion_request) :
  In (Fetch rq) (snd (try_block w [])) ->
  exists file fileContent fileName ext key,
    form_parse w = inr (Some file)
    /\ readFileSync w (filepath file) = inr fileContent
    /\ originalFilename file = Some fileName
    /\ fileExtension fileName = Some ext
    /\ env_OPENAI_API_KEY w = Some key /\ key <> ""
    /\ rq = chat_request key (userContent ext fileName fileContent).
Proof.
  unfold_run.
  destruct (form_parse w) as [e|[file|]];
    try (simpl; intros [H | []]; discriminate).
  destruct (readFileSync w (filepath file)) as [e|bytes] eqn:Er;
    try (simpl; intros [H | [H | []]]; discriminate).
  destruct (originalFilename file) as [fileName|] eqn:En;
    try (simpl; intros [H | [H | []]]; discriminate).
  destruct (fileExtension fileName) as [ext|] eqn:Ee;
    try (simpl; intros [H | [H | []]]; discriminate).
  destruct (env_OPENAI_API_KEY w) as [[|a key]|];
    try (simpl; intros [H | [H | []]]; discriminate).
  assert (Hin : forall t : list event,
            t = [ FormParse; ReadFile (filepath file);
                  Fetch (chat_request (String a key)
                           (userContent ext fileName bytes)) ] ->
            In (Fetch rq) t ->
            exists file' fileContent' fileName' ext' key',
              @inr js_error _ (Some file) = inr (Some file')
              /\ readFileSync w (filepath file') = inr fileContent'
              /\ originalFilename file' = Some fileName'
              /\ fileExtension fileName' = Some ext'
              /\ Some (String a key) = Some key' /\ key' <> ""
              /\ rq = chat_request key'
                        (userContent ext' fileName' fileContent')).
  { intros t -> [H | [H | [H | []]]]; try discriminate.
    injection H as <-.
    exists file, bytes, fileName, ext, (String a key).
    repeat split; try assumption. discriminate. }
  destruct (fetch w _) as [e|resp]; [apply Hin; reflexivity|].
  destruct (ok resp).
  - destruct (http_content resp); [apply Hin; reflexivity|].
    destruct (stringify_error w _); apply Hin; reflexivity.
  - destruct (http_text resp); apply Hin; reflexivity.
Qed.

(** X28: The model is called only for a POST with the right key, and every
    call is the call for the uploaded file: the form holds the file, its
    bytes were read, and the request has the fixed URL and model, the
    server's own non-empty model key as bearer token, the token limit 2000,
    the temperature 0.7, and two messages, the system prompt and the user
    content built from the file's extension, its original name and its
    bytes. *)
Theorem outbound_call_form (w : world) (req : request)
    (rq : completion_request) :
  In (Fetch rq) (snd (handler w req)) ->
  method req = "POST"
  /\ x_api_key req = Some (serverApiKey w)
  /\ exists file fileContent fileName ext key,
       form_parse w = inr (Some file)
       /\ readFileSync w (filepath file) = inr fileContent
       /\ originalFilename file = Some fileName
       /\ fileExtension fileName = Some ext
       /\ env_OPENAI_API_KEY w = Some key /\ key <> ""
       /\ url rq = "https://api.openai.com/v1/chat/completions"
       /\ content_type rq = "application/json"
       /\ authorization rq = "Bearer " ++ key
       /\ model rq = "gpt-4o"
       /\ max_tokens rq = 2000%N
       /\ temperature rq = (7 # 10)%Q
       /\ messages rq
          = [ mkMessage "system" (Text systemPrompt);
              mkMessage "user" (userContent ext fileName fileContent) ].
Proof.
  destruct (handler_cases w req)
    as [[Hm ->] | [(Ho & Hp & ->) | [(Hp & K & ->) | (Hp & K & ->)]]];
    try (simpl; intros []).
  intros H.
  assert (Hkey : x_api_key req = Some (serverApiKey w)).
  { destruct (x_api_key req) as [k|]; simpl in K; [|discriminate].
    destruct (String.eqb_spec k (serverApiKey w)) as [E|E];
      [rewrite E; reflexivity | discriminate]. }
  split; [exact Hp|]. split; [exact Hkey|].
  assert (Ht : In (Fetch rq) (snd (try_block w []))).
  { destruct (try_block w []) as [[[st b]|e|st b] t]; exact H. }
  destruct (try_block_fetch w rq Ht)
    as (file & bytes & n & x & key & Hf & Hr & Hn & Hx & Hk & Hne & ->).
  exists file, bytes, n, x, key. repeat split; assumption.
Qed.

Lemma outbound_call_form_witness :
  In (Fetch (chat_request "sk-test"
               (userContent "pdf" "policy.pdf" sample_bytes)))
     (snd (handler world_prose good_post))
  /\ method good_post = "POST"
  /\ x_api_key good_post = Some (serverApiKey world_prose).
Proof.
  assert (H : In (Fetch (chat_request "sk-test"
                           (userContent "pdf" "policy.pdf" sample_bytes)))
                 (snd (handler world_prose good_post))).
  { right. right. left. reflexivity. }
  split; [exact H|].
  destruct (outbound_call_form world_prose good_post _ H) as (Hm & Hk & _).
  split; [exact Hm | exact Hk].
Defined.

(** X29: Every response, the error ones included, carries the four CORS
    headers. *)
Theorem cors_on_every_response (w : world) (req : request) :
  headers (fst (handler w req)) = cors_headers
  /\ List.length (headers (fst (handler w req))) = 4
  /\ In ("Access-Control-Allow-Origin", "*") (headers (fst (handler w req))).
Proof.
  assert (H : headers (fst (handler w req)) = cors_headers).
  { destruct (handler_cases w req)
      as [[Hm ->] | [(Ho & Hp & ->) | [(Hp & K & ->) | (Hp & K & ->)]]];
      try reflexivity.
    destruct (try_block w []) as [[[st b]|e|st b] t]; reflexivity. }
  rewrite H. split; [reflexivity|]. split; [reflexivity|].
  right. left. reflexivity.
Qed.

Lemma includes_starts (p s : string) :
  startsWith p s = true -> includes p s = true.
Proof. destruct s; simpl; intros ->; reflexivity. Qed.

Lemma includes_middle (p s t : string) : includes p (s ++ p ++ t) = true.
Proof. apply includes_skip, includes_starts, startsWith_refl_app. Qed.

Lemma append_assoc (s t u : string) : (s ++ t) ++ u = s ++ t ++ u.
Proof. induction s as [|a s IH]; simpl; [reflexivity | rewrite IH; reflexivity]. Qed.

(** X30: The instruction text names the file as the uploader gave it, between
    double quotes and unescaped. *)
Theorem prompt_names_the_file (fileName : string) :
  includes (dq ++ fileName ++ dq) (userPrompt fileName) = true.
Proof.
  unfold userPrompt. cbn [String.concat].
  fold (q fileName).
  match goal with
  | |- includes _ ((?pre ++ q fileName ++ ?post) ++ ?rest) = true =>
      replace ((pre ++ q fileName ++ post) ++ rest)
        with (pre ++ q fileName ++ (post ++ rest))
  end.
  - apply includes_middle.
  - rewrite !append_assoc. reflexivity.
Qed.

End OutboundSpec.
